(** * The fishtest worker: task lifecycle engine

    A shallow embedding of [worker/worker.py]: the option parser for the
    concurrency expression, the integrity manifests ([sri.txt]), the shared
    state with its three writers (main loop, heartbeat loop, signal
    handler), one iteration of the main loop ([fetch_and_handle_task]) and
    the main loop of [worker()] with its exit code.

    Conventions.
    - Calls that leave [worker.py] (the dispatcher, the expression parser,
      [run_games], the file system, the clock) are answered by an explicit
      environment value handed to the function that makes the call.
    - What the worker does to the outside world is recorded as a list of
      [effect]s, in program order.
    - Time stamps are integers counting microseconds, the resolution of
      [datetime]; the retry delay is an integer number of seconds (the floats
      15.0 ... 900.0 of the source are all exact). *)

From Stdlib Require Import ZArith NArith QArith Qround String Ascii List Lia.
From Stdlib Require Import DecimalString HexadecimalString Lqa.
From stdpp Require Import base option gmap strings list.

Local Open Scope Z_scope.

(* ===================================================================== *)
(** * Part I: definitions                                                *)
(* ===================================================================== *)

(** ** Text helpers *)

(** [needle in hay] on Python strings. *)
Fixpoint contains (needle hay : string) : bool :=
  String.prefix needle hay ||
  match hay with
  | EmptyString => false
  | String _ rest => contains needle rest
  end.

(** [str(n)] for a Python int. *)
Definition str_of_int (n : Z) : string :=
  DecimalString.NilZero.string_of_int (Z.to_int n).

(** [hex(n)] for a non-negative Python int. *)
Definition hex (n : N) : string :=
  "0x" +:+ HexadecimalString.NilZero.string_of_uint (N.to_hex_uint n).

(** [posixpath.basename(p)]: what follows the last slash of [p]. *)
Fixpoint basename (p : string) : string :=
  match p with
  | EmptyString => EmptyString
  | String c rest =>
      if Ascii.eqb c "/" || contains "/" rest then basename rest else p
  end.

(** The FNAME field that [gzip.GzipFile(filename=...)] writes in the header
    of the member ([_write_gzip_header] of the standard library): the base
    name of the file name, without a final ".gz".  The name is encoded in
    Latin-1 there, which the byte strings of this file are. *)
Definition gzip_fname (filename : string) : string :=
  let fname := basename filename in
  let n := String.length fname in
  if String.eqb (substring (n - 3) 3 fname) ".gz"
  then substring 0 (n - 3) fname
  else fname.

(** ** Constants of the module *)

Definition WORKER_VERSION : Z := 286.
Definition FILE_LIST : list string := ["updater.py"; "worker.py"; "games.py"].
Definition INITIAL_RETRY_TIME : Z := 15.
Definition MAX_RETRY_TIME : Z := 900.

(** ** Option parsing: [class _concurrency] *)

(** [round(v)] for a finite number [v] (an int, or a float taken as the
    rational it denotes): nearest integer, ties to the even one. *)
Definition py_round (v : Q) : Z :=
  let f := Qfloor v in
  match Qcompare (v - inject_Z f) (1 # 2) with
  | Lt => f
  | Gt => f + 1
  | Eq => if Z.even f then f else f + 1
  end.

(** [_concurrency(MAX).__call__(x)].  [parsed] is what
    [round(e.parse(x))] has to work with: [None] when the parser or [round]
    raises (a syntax error, an infinite value), otherwise the value of the
    expression.  The result is [None] when [ValueError] is raised, and the
    returned pair otherwise. *)
Definition concurrency_call (MAX : Z) (x : string) (parsed : option Q)
  : option (string * Z) :=
  match parsed with
  | None => None
  | Some v =>
      let ret := py_round v in
      if ret <=? 0 then None
      else if (negb (contains "MAX" x) && (ret >=? MAX)) || (ret >? MAX) then None
      else Some (x, ret)
  end.

(** The clamp as the specification words it, for comparison with
    [concurrency_call]: rejected when [v <= 0] or [v > MAX]; otherwise [v]
    when the text contains MAX, and [min v (MAX - 1)] when it does not. *)
Definition spec_concurrency_clamp (MAX : Z) (x : string) (v : Z) : option Z :=
  if (v <=? 0) || (v >? MAX) then None
  else if contains "MAX" x && (v <=? MAX) then Some v
  else Some (Z.min v (MAX - 1)).

(** ** Integrity manifests: [generate_sri], [verify_sri], [verify_remote_sri] *)

(** A manifest maps "__version" to an integer and each file name to the
    text of its hash, as [write_sri] stores them. *)
Inductive sri_value : Type :=
| SInt (n : Z)
| SStr (s : string).

#[global] Instance sri_value_eq_dec : EqDecision sri_value.
Proof. solve_decision. Defined.

Abbreviation manifest := (gmap string sri_value).

(** What [json.load] makes of [sri.txt]. *)
Inductive sri_file : Type :=
| SriUnreadable              (* open or json.load raised *)
| SriNotDict                 (* valid JSON, not an object *)
| SriDict (sri_ : manifest).

(** What [download_sri] returns: [None], a dictionary, or another value
    that [json.loads] can produce. *)
Inductive download : Type :=
| DownloadFailed             (* None: the download or json.loads raised, or
                                the text was the JSON null *)
| DownloadedOther            (* a list, a string, a number or a boolean *)
| Downloaded (sri_ : manifest).

(** Result of [verify_remote_sri]: [Verdict true], [Verdict false], [None]
    (here [Unknown]), or an exception leaving the function. *)
Inductive verdict : Type :=
| Verdict (unmodified : bool)
| Unknown
| VerifyRaised.

Section Integrity.

(** [text_hash(install_dir / file)] of games.py, a hashing primitive: the
    hash of the file as it is on disk, [None] when it raises. *)
Variable text_hash : string -> option string.

Fixpoint generate_sri_loop (files : list string) (sri : manifest)
  : option manifest :=
  match files with
  | [] => Some sri
  | file :: files' =>
      match text_hash file with
      | Some h => generate_sri_loop files' (<[file := SStr h]> sri)
      | None => None
      end
  end.

Definition generate_sri : option manifest :=
  generate_sri_loop FILE_LIST {["__version" := SInt WORKER_VERSION]}.

(** The loop of [verify_sri] over [sri.items()].  The order of the items
    decides only which message is printed first. *)
Fixpoint verify_sri_loop (items : list (string * sri_value)) (sri_ : manifest)
  : bool :=
  match items with
  | [] => true
  | (k, v) :: items' =>
      if String.eqb k "__version" then verify_sri_loop items' sri_
      else
        match sri_ !! k with
        | None => false
        | Some v_ => if decide (v = v_) then verify_sri_loop items' sri_ else false
        end
  end.

Definition verify_sri (sri_txt : sri_file) : bool :=
  match generate_sri with
  | None => false
  | Some sri =>
      match sri_txt with
      | SriUnreadable => false
      | SriNotDict => false
      | SriDict sri_ => verify_sri_loop (map_to_list sri) sri_
      end
  end.

(** The loop of [verify_remote_sri] over [sri_.items()], which has no early
    exit: [tainted] is set at every entry that is missing or different. *)
Definition tainted_loop (items : list (string * sri_value)) (sri : manifest)
  : bool :=
  fold_left
    (fun tainted kv =>
       match sri !! kv.1 with
       | None => true
       | Some v => if decide (kv.2 = v) then tainted else true
       end)
    items false.

Definition verify_remote_sri (downloaded : download) : verdict :=
  let sri := generate_sri in
  match downloaded with
  | DownloadFailed => Unknown
  | DownloadedOther => VerifyRaised          (* no attribute 'get' *)
  | Downloaded sri_ =>
      let version := default (SInt (-1)) (sri_ !! "__version") in
      if decide (version = SInt WORKER_VERSION) then
        match sri with
        | Some sri => Verdict (negb (tainted_loop (map_to_list sri_) sri))
        | None =>
            (* [k not in None] raises at the first entry *)
            match map_to_list sri_ with
            | [] => Verdict true
            | _ :: _ => VerifyRaised
            end
        end
      else Verdict true
  end.

End Integrity.

(** ** CRC-32 as [zlib.crc32] computes it *)

Definition crc32_bit (c : N) : N :=
  if N.testbit c 0 then N.lxor (N.shiftr c 1) 0xEDB88320 else N.shiftr c 1.

Definition crc32_byte (c : N) (b : Byte.byte) : N :=
  N.iter 8 crc32_bit (N.lxor c (Byte.to_N b)).

Definition crc32 (data : list Byte.byte) : N :=
  N.lxor (fold_left crc32_byte data 0xFFFFFFFF%N) 0xFFFFFFFF%N.

(** ** The shared state *)

(** What the worker reads of a run: [str(run["_id"])] and whether
    [run["args"]] has the keys "sprt" and "spsa". *)
Record run_t : Type := mkRun {
  run_id : string;
  has_sprt : bool;
  has_spsa : bool
}.

(** The dictionary [current_state]. *)
Record current_state : Type := mkState {
  run : option run_t;
  task_id : option Z;
  alive : bool;
  last_updated : Z
}.

Definition set_run (r : option run_t) (s : current_state) : current_state :=
  mkState r (task_id s) (alive s) (last_updated s).

Definition set_task_id (t : option Z) (s : current_state) : current_state :=
  mkState (run s) t (alive s) (last_updated s).

(** [current_state["alive"] = False], the only assignment to that key after
    the dictionary is created. *)
Definition clear_alive (s : current_state) : current_state :=
  mkState (run s) (task_id s) false (last_updated s).

Definition set_last_updated (now : Z) (s : current_state) : current_state :=
  mkState (run s) (task_id s) (alive s) now.

(** The dictionary as [worker()] creates it at time [now]. *)
Definition initial_state (now : Z) : current_state :=
  mkState None None true now.

(** [timedelta(seconds=n)] in microseconds. *)
Definition seconds (n : Z) : Z := n * 1000000.

(** ** Effects *)

(** The body of the PGN upload: base64 of a gzip stream whose member
    carries the name [gz_member] in its header and holds the UTF-8 text
    left of [gz_source] after undecodable bytes are dropped. *)
Record pgn_body : Type := mkPgnBody {
  gz_member : string;
  gz_source : list Byte.byte
}.

(** The payload of a POST, without the password and [worker_info], which
    every request carries unchanged. *)
Inductive payload : Type :=
| BeatPayload (run_id : string) (task_id : Z)
| ReportPayload (run_id : string) (task_id : Z) (message : string)
| PgnPayload (run_id : string) (task_id : Z) (message : string) (pgn : pgn_body).

Inductive effect : Type :=
| Post (url : string) (body : payload)
| Unlink (path : string)
| Sleep (delay : Z).

(** ** The signal handler *)

(** The four classes the [except] clauses of [fetch_and_handle_task] tell
    apart, in the order of the clauses; [OtherException] carries
    [type(e).__name__]. *)
Inductive exception_class : Type :=
| FatalException
| RunException
| WorkerException
| OtherException (name : string).

(** [on_sigint]: the new state and the exception it raises, by its class
    and message.  [signame] is [str_signal(signal)]. *)
Definition on_sigint (signame : string) (s : current_state)
  : current_state * (exception_class * string) :=
  (clear_alive s, (FatalException, "Terminated by signal " +:+ signame +:+ ".")).

(** ** Exception messages: [get_exception] *)

(** One entry of [traceback.extract_tb], with the file name already reduced
    to its last component. *)
Record frame : Type := mkFrame {
  frame_file : string;
  frame_line : Z
}.

Definition exception_message (exc_name : string) (f : frame) : string :=
  "Exception " +:+ exc_name +:+ " at " +:+ frame_file f +:+ ":" +:+
  str_of_int (frame_line f) +:+ " WorkerVersion: " +:+ str_of_int WORKER_VERSION.

(** The [while filename in files] loop: [cur] is the entry at index [i],
    [later] the entries after it; running past the end is the [IndexError]
    that breaks the loop. *)
Fixpoint get_exception_loop (files : list string) (exc_name : string)
    (cur : frame) (message : string) (later : list frame) : string :=
  if bool_decide (frame_file cur ∈ files) then
    let message := exception_message exc_name cur in
    match later with
    | [] => message
    | next :: later' => get_exception_loop files exc_name next message later'
    end
  else message.

(** [get_exception(files)] for an exception of type [exc_name] whose
    traceback is [tb]; a traceback seen from an [except] clause has at least
    the entry of the function that holds the clause. *)
Definition get_exception (files : list string) (exc_name : string)
    (tb : frame * list frame) : string :=
  get_exception_loop files exc_name tb.1 (exception_message exc_name tb.1) tb.2.

(** ** Answers of the environment *)

(** The response to /api/beat: the request raised, or a JSON object with or
    without the key "error" and with "task_alive" absent, true or false. *)
Inductive beat_response : Type :=
| BeatRaised
| BeatReply (has_error : bool) (task_alive : option bool).

(** The response to /api/request_version. *)
Inductive version_response : Type :=
| VersionRaised              (* WorkerException *)
| VersionError               (* "error" in req *)
| VersionIs (version : Z).

(** The response to /api/request_task. *)
Inductive task_response : Type :=
| TaskRaised                 (* WorkerException *)
| TaskError                  (* "error" in req *)
| TaskWaiting                (* "task_waiting" in req *)
| TaskAssigned (r : run_t) (t : Z).

(** An exception leaving [run_games]: the clause that catches it, [str(e)]
    and the traceback. *)
Record raised : Type := mkRaised {
  exc_class : exception_class;
  exc_str : string;
  exc_tb : frame * list frame
}.

Inductive games_outcome : Type :=
| GamesReturned
| GamesRaised (e : raised).

(** What the other two writers of the shared state do while the main thread
    is inside [run_games]. *)
Inductive concurrent : Type :=
| SignalArrives (signame : string)
| HeartbeatWakes (now : Z) (response : beat_response).

(** The dictionary [pgn_file] as [run_games] leaves it, and the file it
    names: [None] when there is no such file, its bytes otherwise. *)
Record pgn_file : Type := mkPgn {
  pgn_name : option string;
  pgn_CRC : option string;
  pgn_disk : option (list Byte.byte)
}.

(** Everything one call of [fetch_and_handle_task] asks of its environment. *)
Record task_env : Type := mkTaskEnv {
  env_version : version_response;
  env_task : task_response;
  env_concurrent : list concurrent;
  env_games : games_outcome;
  env_pgn : pgn_file
}.

(** One pass of the main loop: the call above, whether [fish.exit] is a file
    afterwards, and whether a signal interrupts the back-off sleep. *)
Record iteration : Type := mkIteration {
  it_env : task_env;
  it_fish_exit : bool;
  it_sleep_signal : option string
}.

Section Worker.

(** [remote], the base URL of the dispatcher. *)
Variable remote : string.

(** ** The heartbeat loop *)

(** The body of the [while] loop of [heartbeat], after [time.sleep(1)],
    with [now] the clock reading. *)
Definition heartbeat_body (now : Z) (response : beat_response)
    (s : current_state) : current_state * list effect :=
  if last_updated s + seconds 120 <? now then
    let s := set_last_updated now s in
    match run s, task_id s with
    | Some r, Some t =>
        let beat := [Post (remote +:+ "/api/beat") (BeatPayload (run_id r) t)] in
        match response with
        | BeatRaised => (s, beat)
        | BeatReply has_error task_alive =>
            if negb has_error then
              if negb (default true task_alive)
              then (set_run None (set_task_id None s), beat)
              else (s, beat)
            else (s, beat)
        end
    | _, _ => (s, [])                       (* "Skipping heartbeat..." *)
    end
  else (s, []).

(** A write to the shared state by the main thread or the signal handler. *)
Inductive write : Type :=
| WriteRun (r : option run_t)
| WriteTaskId (t : option Z)
| WriteAliveFalse.

Definition apply_write (s : current_state) (w : write) : current_state :=
  match w with
  | WriteRun r => set_run r s
  | WriteTaskId t => set_task_id t s
  | WriteAliveFalse => clear_alive s
  end.

(** One wake-up of the heartbeat thread: what the others wrote while it
    slept, the clock reading, and the answer to the beat if one is sent. *)
Record wake : Type := mkWake {
  wake_writes : list write;
  wake_now : Z;
  wake_response : beat_response
}.

(** The loop of [heartbeat] over the wake-ups it is given; it ends when
    [alive] is found false. *)
Fixpoint heartbeat (wakes : list wake) (s : current_state)
  : current_state * list effect :=
  match wakes with
  | [] => (s, [])
  | w :: wakes' =>
      if alive s then
        let s1 := fold_left apply_write (wake_writes w) s in
        let '(s2, beat) := heartbeat_body (wake_now w) (wake_response w) s1 in
        let '(s3, beats) := heartbeat wakes' s2 in
        (s3, beat ++ beats)
      else (s, [])
  end.

(** ** One task: [verify_worker_version] and [fetch_and_handle_task] *)

(** [verify_worker_version], for an [update()] that comes back: [Some true],
    [Some false] or [None]. *)
Definition verify_worker_version (response : version_response) : option bool :=
  match response with
  | VersionRaised => None
  | VersionError => Some false
  | VersionIs version => if version >? WORKER_VERSION then Some false else Some true
  end.

Definition apply_concurrent (s : current_state) (c : concurrent)
  : current_state * list effect :=
  match c with
  | SignalArrives signame => ((on_sigint signame s).1, [])
  | HeartbeatWakes now response => heartbeat_body now response s
  end.

Fixpoint run_concurrent (cs : list concurrent) (s : current_state)
  : current_state * list effect :=
  match cs with
  | [] => (s, [])
  | c :: cs' =>
      let '(s1, e1) := apply_concurrent s c in
      let '(s2, e2) := run_concurrent cs' s1 in
      (s2, e1 ++ e2)
  end.

(** What the [try ... except] around [run_games] leaves in [success],
    [server_message], [api] and [current_state]. *)
Definition handle_games (outcome : games_outcome) (s : current_state)
  : bool * string * string * current_state :=
  let api := remote +:+ "/api/failed_task" in
  match outcome with
  | GamesReturned => (true, "", api, s)
  | GamesRaised e =>
      match exc_class e with
      | FatalException => (false, exc_str e, api, clear_alive s)
      | RunException => (false, exc_str e, remote +:+ "/api/stop_run", s)
      | WorkerException => (false, exc_str e, api, s)
      | OtherException name =>
          (false, get_exception ["worker.py"; "games.py"] name (exc_tb e), api,
           clear_alive s)
      end
  end.

(** The end of [fetch_and_handle_task], from the test on [pgn_file] on. *)
Definition upload_pgn (r : run_t) (t : Z) (message : string) (pgn : pgn_file)
  : list effect :=
  match pgn_name pgn, pgn_disk pgn with
  | Some name, Some file_content =>
      if (length file_content =? 0)%nat then []
      else
        (if negb (has_spsa r) then
           let crc_actual := hex (crc32 file_content) in
           if decide (Some crc_actual = pgn_CRC pgn) then
             [Post (remote +:+ "/api/upload_pgn")
                (PgnPayload (run_id r) t message
                   (mkPgnBody
                      (gzip_fname (run_id r +:+ "-" +:+ str_of_int t +:+ ".pgn.gz"))
                      file_content))]
           else []                          (* "Skipping upload." *)
         else [])
        ++ [Unlink name]
  | _, _ => []                              (* "Task exited" *)
  end.

(** [fetch_and_handle_task]: the state it leaves, its return value and its
    effects, those of the heartbeat thread during the match included.  The
    calls of [trim_files] and [get_remaining_github_api_calls] are left out:
    they do not touch [current_state], and what they set in [worker_info] is
    not part of the payloads as recorded here. *)
Definition fetch_and_handle_task (env : task_env) (s : current_state)
  : current_state * bool * list effect :=
  let ret := verify_worker_version (env_version env) in
  let s := if decide (ret = Some false) then clear_alive s else s in
  match ret with
  | Some true =>
      match env_task env with
      | TaskRaised | TaskError | TaskWaiting => (s, false, [])
      | TaskAssigned r t =>
          let s := set_task_id (Some t) (set_run (Some r) s) in
          let '(s, beats) := run_concurrent (env_concurrent env) s in
          let '(success, server_message, api, s) := handle_games (env_games env) s in
          let s := set_run None (set_task_id None s) in
          let report :=
            if success then []
            else [Post api (ReportPayload (run_id r) t server_message)] in
          (s, success, beats ++ report ++ upload_pgn r t server_message (env_pgn env))
      end
  | _ => (s, false, [])
  end.

(** ** The main loop of [worker()] *)

(** Which exit of the [while] loop was taken. *)
Inductive stop : Type :=
| StopFishExit               (* fish.exit is a file *)
| StopNotAlive               (* alive is false after the task *)
| StopFleet                  (* no success and fleet is set *)
| StopCondition.             (* the loop condition found alive false *)

(** The record of one pass: the return value of [fetch_and_handle_task],
    its effects, and the delay slept afterwards, if any. *)
Record pass : Type := mkPass {
  pass_success : bool;
  pass_effects : list effect;
  pass_slept : option Z
}.

(** The body of the [while] loop: the state and the pass record, and
    either the exit taken or the next value of [delay]. *)
Definition loop_body (fleet : bool) (it : iteration) (delay : Z)
    (s : current_state) : current_state * pass * (stop + Z) :=
  let '(s, success, effects) := fetch_and_handle_task (it_env it) s in
  if it_fish_exit it then
    (clear_alive s, mkPass success effects None, inl StopFishExit)
  else if negb (alive s) then
    (s, mkPass success effects None, inl StopNotAlive)
  else if negb success then
    if fleet then
      (clear_alive s, mkPass success effects None, inl StopFleet)
    else
      let s := match it_sleep_signal it with
               | Some signame => (on_sigint signame s).1   (* caught by safe_sleep *)
               | None => s
               end in
      (s, mkPass success effects (Some delay),
       inr (Z.min MAX_RETRY_TIME (delay * 2)))
  else
    (s, mkPass success effects None, inr INITIAL_RETRY_TIME).

(** The [while current_state["alive"]] loop over the passes it is given:
    [None] when they are used up and the loop has not ended. *)
Fixpoint main_loop (fleet : bool) (its : list iteration) (delay : Z)
    (s : current_state) : option stop * current_state * list pass :=
  if alive s then
    match its with
    | [] => (None, s, [])
    | it :: its' =>
        let '(s1, p, next) := loop_body fleet it delay s in
        match next with
        | inl why => (Some why, s1, [p])
        | inr delay' =>
            let '(why, s2, ps) := main_loop fleet its' delay' s1 in
            (why, s2, p :: ps)
        end
    end
  else (Some StopCondition, s, []).

(** ** [worker()] *)

(** The two options [worker()] itself reads. *)
Record options : Type := mkOptions {
  only_config : bool;
  fleet : bool
}.

(** What the start of [worker()] asks of its environment, in the order of
    the calls. *)
Record startup : Type := mkStartup {
  lock_timeout : bool;                       (* acquire raised openlock.Timeout *)
  start_clock : Z;                           (* datetime.now at creation of the state *)
  parameters : option options;               (* setup_parameters *)
  first_version : option version_response;   (* None: another exception *)
  toolchain : bool;                          (* verify_toolchain *)
  fastchess : bool;                          (* setup_fastchess *)
  hashes : string -> option string;          (* text_hash on the worker files *)
  remote_sri : download;                     (* download_sri *)
  release_returns : bool                     (* the last worker_lock.release() does
                                                not raise; it does when the lock
                                                object could not be made *)
}.

(** How far [worker()] got. *)
Inductive stage : Type :=
| AtLock
| AtSetup
| AtOnlyConfig
| AtVersion
| AtToolchain
| AtFastchess
| AtRemoteSri
| AtMainLoop (why : stop).

(** The end of the process: [worker()] returned [code] from [at_stage], an
    exception left it, or the main loop is still running. *)
Inductive ending : Type :=
| Returned (code : Z) (at_stage : stage)
| Crashed
| Running.

(** The end of [worker()], after the [while] loop. *)
Definition after_main_loop (release_returns : bool) (why : option stop)
    (passes : list pass) : ending * list pass * list effect :=
  match why with
  | None => (Running, passes, [])
  | Some why =>
      let fish_exit := match why with StopFishExit => true | _ => false end in
      let removed := if fish_exit then [Unlink "fish.exit"] else [] in
      if release_returns
      then (Returned (if fish_exit then 0 else 1) (AtMainLoop why), passes, removed)
      else (Crashed, passes, removed)
  end.

Definition worker (st : startup) (its : list iteration)
  : ending * list pass * list effect :=
  if lock_timeout st then (Returned 1 AtLock, [], [])
  else
    let current_state := initial_state (start_clock st) in
    match parameters st with
    | None => (Returned 1 AtSetup, [], [])
    | Some opts =>
        if only_config opts then (Returned 0 AtOnlyConfig, [], [])
        else
          match verify_worker_version <$> first_version st with
          | None | Some (Some false) => (Returned 1 AtVersion, [], [])
          | Some _ =>
              if negb (toolchain st) then (Returned 1 AtToolchain, [], [])
              else if negb (fastchess st) then (Returned 1 AtFastchess, [], [])
              else
                match verify_remote_sri (hashes st) (remote_sri st) with
                | Unknown => (Returned 1 AtRemoteSri, [], [])
                | VerifyRaised => (Crashed, [], [])
                | Verdict unmodified =>
                    let '(why, _, passes) :=
                      main_loop (fleet opts) its INITIAL_RETRY_TIME current_state in
                    after_main_loop (release_returns st) why passes
                end
          end
    end.

(** The exit status of the process: [sys.exit(worker())], and 1 when the
    interpreter ends on an exception. *)
Definition exit_code (e : ending) : option Z :=
  match e with
  | Returned code _ => Some code
  | Crashed => Some 1
  | Running => None
  end.

End Worker.

(** ** Vocabulary of the statements *)

(** The start of [worker()] gets as far as the call of [verify_remote_sri]:
    acquiring the lock does not time out (any other exception of the lock
    is printed and the start goes on without it), the parameters are read
    and do not ask for the configuration only, the first version check does
    not fail, and the tool chain and fastchess are in place. *)
Definition reaches_remote_check (st : startup) : Prop :=
  lock_timeout st = false /\
  (exists opts, parameters st = Some opts /\ only_config opts = false) /\
  (exists r, first_version st = Some r /\ verify_worker_version r <> Some false) /\
  toolchain st = true /\
  fastchess st = true.

(** The "__version" of a downloaded manifest, as [sri_.get("__version", -1)]. *)
Definition remote_version (sri_ : manifest) : sri_value :=
  default (SInt (-1)) (sri_ !! "__version").

(** A wake-up during which nobody else wrote to the shared state. *)
Definition quiet (w : wake) : Prop := wake_writes w = [].


(** The shared state as the heartbeat thread finds it at the wake-up [w]
    that it slept into from the state [s]. *)
Definition found (w : wake) (s : current_state) : current_state :=
  fold_left apply_write (wake_writes w) s.

(** While the heartbeat thread slept into the wake-up [w], the main thread
    assigned task [t] of run [r], as [fetch_and_handle_task] does, and
    nobody wrote anything else. *)
Definition assigns (r : run_t) (t : Z) (w : wake) : Prop :=
  wake_writes w = [WriteRun (Some r); WriteTaskId (Some t)].

(** The POST to /api/beat for task [t] of run [r]. *)
Definition beat (remote : string) (r : run_t) (t : Z) : effect :=
  Post (remote +:+ "/api/beat") (BeatPayload (run_id r) t).

(** The effects that concern the PGN file: the upload and the deletion. *)
Definition pgn_effects (effects : list effect) : list effect :=
  List.filter
    (fun e => match e with
              | Post _ (PgnPayload _ _ _ _) => true
              | Unlink _ => true
              | _ => false
              end)
    effects.

(** The reports among the effects: the POSTs that carry a message and no
    PGN. *)
Definition reports (effects : list effect) : list effect :=
  List.filter
    (fun e => match e with
              | Post _ (ReportPayload _ _ _) => true
              | _ => false
              end)
    effects.

(** The name of the gzip member for task [t] of run [r]: run-task.pgn, of
    the run id what follows its last slash, should it have one. *)
Definition pgn_member (r : run_t) (t : Z) : string :=
  basename (run_id r) +:+ "-" +:+ str_of_int t +:+ ".pgn".

(** The POST of the PGN [file_content] for task [t] of run [r]. *)
Definition pgn_post (remote : string) (r : run_t) (t : Z) (message : string)
    (file_content : list Byte.byte) : effect :=
  Post (remote +:+ "/api/upload_pgn")
    (PgnPayload (run_id r) t message (mkPgnBody (pgn_member r t) file_content)).

(** The shared state while [run_games] runs on task [t] of run [r], entered
    from state [s]: after the concurrent activity [cs]. *)
Definition state_after_games (remote : string) (r : run_t) (t : Z)
    (cs : list concurrent) (s : current_state) : current_state :=
  (run_concurrent remote cs (set_task_id (Some t) (set_run (Some r) s))).1.

(** The number of failed passes at the end of [ps]. *)
Fixpoint leading_failures (ps : list pass) : nat :=
  match ps with
  | [] => 0
  | p :: ps' => if pass_success p then 0 else S (leading_failures ps')
  end.

Definition failure_streak (ps : list pass) : nat := leading_failures (rev ps).



(** One step of one of the three writers of the shared state: the signal
    handler, the body of the heartbeat loop, one assignment of the main
    thread, or a whole pass of the main loop. *)
Inductive action : Type :=
| ActSignal (signame : string)
| ActHeartbeat (now : Z) (response : beat_response)
| ActWrite (w : write)
| ActPass (fleet : bool) (it : iteration) (delay : Z).

Definition act (remote : string) (s : current_state) (a : action) : current_state :=
  match a with
  | ActSignal signame => (on_sigint signame s).1
  | ActHeartbeat now response => (heartbeat_body remote now response s).1
  | ActWrite w => apply_write s w
  | ActPass fleet it delay => (loop_body remote fleet it delay s).1.1
  end.

(** The states the process goes through, the first one included. *)
Fixpoint states (remote : string) (acts : list action) (s : current_state)
  : list current_state :=
  s :: match acts with
       | [] => []
       | a :: acts' => states remote acts' (act remote s a)
       end.

(** ** Sample inputs *)

Definition sample_remote : string := "https://tests.stockfishchess.org:443".

Definition sample_run : run_t := mkRun "R1" true false.

(** The state while task 3 of run R1 is played, last touched at [stamp]. *)
Definition sample_busy (stamp : Z) : current_state :=
  mkState (Some sample_run) (Some 3) true stamp.

(** [n] undisturbed wake-ups, one per second after [t0], every beat
    answered by [response]. *)
Definition ticking (t0 : Z) (n : nat) (response : beat_response) : list wake :=
  (fun i : nat => mkWake [] (t0 + seconds (Z.of_nat i + 1)) response) <$> seq 0 n.

(** The wake-up at 130 s into which task 3 of run R1 was assigned. *)
Definition sample_assignment : wake :=
  mkWake [WriteRun (Some sample_run); WriteTaskId (Some 3)] (seconds 130) BeatRaised.

(** A PGN file of ten bytes with its CRC as [hex] prints it. *)
Definition sample_pgn_bytes : list Byte.byte := String.list_byte_of_string "1. e4 e5 *".

Definition sample_pgn : pgn_file :=
  mkPgn (Some "testing/R1-3.pgn") (Some "0x303d7ed4") (Some sample_pgn_bytes).

(** An empty PGN file, for which the runner recorded the CRC of no bytes. *)
Definition empty_pgn : pgn_file :=
  mkPgn (Some "testing/R1-3.pgn") (Some "0x0") (Some []).

(** A pass in which task 3 of run R1 is assigned and [run_games] ends as
    [outcome], leaving [pgn]. *)
Definition sample_env (outcome : games_outcome) (pgn : pgn_file) : task_env :=
  mkTaskEnv (VersionIs 286) (TaskAssigned sample_run 3) [] outcome pgn.

(** A pass in which the dispatcher has no task. *)
Definition waiting_env : task_env :=
  mkTaskEnv (VersionIs 286) TaskWaiting [] GamesReturned (mkPgn None None None).

Definition sample_traceback : frame * list frame :=
  (mkFrame "worker.py" 1325, [mkFrame "games.py" 1502; mkFrame "subprocess.py" 550]).

Definition sample_hash (file : string) : option string :=
  if String.eqb file "updater.py" then Some "sha384-uuuu"
  else if String.eqb file "worker.py" then Some "sha384-wwww"
  else if String.eqb file "games.py" then Some "sha384-gggg"
  else None.

Definition sample_sri : manifest :=
  <["games.py" := SStr "sha384-gggg"]>
    (<["worker.py" := SStr "sha384-wwww"]>
       (<["updater.py" := SStr "sha384-uuuu"]> {["__version" := SInt 286]})).

(** The hashes in a directory from which updater.py is gone. *)
Definition unreadable_hash (file : string) : option string :=
  if String.eqb file "updater.py" then None else sample_hash file.

(** A start of [worker()] that passes every local check. *)
Definition sample_startup (opts : options) (downloaded : download) : startup :=
  mkStartup false 0 (Some opts) (Some (VersionIs 286)) true true sample_hash downloaded
    true.

(** Downloaded manifests: one of another version, one with another hash
    for worker.py. *)
Definition stale_remote : manifest := <["__version" := SInt 285]> sample_sri.

Definition tampered_remote : manifest := <["worker.py" := SStr "sha384-xxxx"]> sample_sri.

(** A history of the process: a beat, a pass without a task, a signal, and
    what the heartbeat thread and the main thread may still do after it. *)
Definition sample_history : list action :=
  [ActHeartbeat (seconds 121) BeatRaised;
   ActPass false (mkIteration waiting_env false None) 15;
   ActSignal "SIGTERM";
   ActHeartbeat (seconds 300) BeatRaised;
   ActWrite (WriteRun (Some sample_run));
   ActPass false (mkIteration (sample_env GamesReturned sample_pgn) false None) 30].

(** [n] passes in a row in which the dispatcher has no task, fish.exit
    does not appear and no signal arrives. *)
Definition sample_waits (n : nat) : list iteration :=
  replicate n (mkIteration waiting_env false None).

(** Two passes without a task, a third that plays task 3 of run R1, and a
    fourth, again without a task, after which fish.exit is found. *)
Definition sample_day : list iteration :=
  [mkIteration waiting_env false None;
   mkIteration waiting_env false None;
   mkIteration (sample_env GamesReturned sample_pgn) false None;
   mkIteration waiting_env true None].

(** ** Further functions of worker.py *)

(** [write_sri]: what [json.load] reads back from the [sri.txt] it wrote.
    [json.dump] of the manifest gives a dictionary, and [json.dump(None)]
    the text null, which is not one. *)
Definition write_sri (text_hash : string -> option string) : sri_file :=
  match generate_sri text_hash with
  | Some sri => SriDict sri
  | None => SriNotDict
  end.

(** A Python number: an int or a finite float, as the rational it denotes,
    an infinite float, or the float nan. *)
Inductive number : Type :=
| Finite (v : Q)
| Infinite (negative : bool)
| NaN.

(** [a < b] on numbers; every comparison with nan is false. *)
Definition number_ltb (a b : number) : bool :=
  match a, b with
  | NaN, _ | _, NaN => false
  | Finite v, Finite w => if Qlt_le_dec v w then true else false
  | Finite _, Infinite negative => negb negative
  | Infinite negative, Finite _ => negative
  | Infinite negative, Infinite negative' => negative && negb negative'
  end.

(** [min(a, b)] and [max(a, b)]: the first argument, unless the second is
    strictly smaller, respectively greater. *)
Definition py_min (a b : number) : number := if number_ltb b a then b else a.
Definition py_max (a b : number) : number := if number_ltb a b then b else a.

(** [round(n)]: [None] where it raises, [OverflowError] for an infinite
    float and [ValueError] for nan. *)
Definition round_number (n : number) : option Z :=
  match n with
  | Finite v => Some (py_round v)
  | Infinite _ | NaN => None
  end.

(** [_memory(MAX).__call__(x)]: [round(max(min(e.parse(x), self.MAX), 0))],
    with [parsed] the value of [e.parse(x)], [None] when the parser raises.
    The result is [None] when [ValueError] is raised. *)
Definition memory_call (MAX : Q) (x : string) (parsed : option number)
  : option (string * Z) :=
  v ← parsed;
  ret ← round_number (py_max (py_min v (Finite MAX)) (Finite 0));
  Some (x, ret).

(** Step 5 of [setup_parameters], the port: a port left over from the
    other protocol is replaced. *)
Definition fix_port (protocol : string) (port : Z) : Z :=
  if String.eqb protocol "http" && (port =? 443) then 80
  else if String.eqb protocol "https" && (port =? 80) then 443
  else port.

Definition STC_memory : Z := 2 * (16 + 10 + 138 + 16).
Definition fc_memory : Z := 60.

(** Step 5 of [setup_parameters], the memory:
    [int((options.max_memory - fc_memory) / STC_memory)] and what follows.
    The result is [None] where the function returns [None], and otherwise
    [options.concurrency] and [options.concurrency_reduced].  [int] of the
    float quotient of two integers is their quotient rounded towards zero,
    for every amount of memory below 2^53 MiB. *)
Definition limit_concurrency (max_memory concurrency : Z) : option (Z * bool) :=
  let max_concurrency := Z.quot (max_memory - fc_memory) STC_memory in
  if max_concurrency <? 1 then None
  else if max_concurrency <? concurrency then Some (max_concurrency, true)
  else Some (concurrency, false).

(** *** Credentials: [verify_credentials], [get_credentials] *)

(** The response to the /api/request_version of [verify_credentials]: the
    request raised, or a JSON object with or without the key "error". *)
Inductive credentials_response : Type :=
| CredentialsRaised
| CredentialsReply (has_error : bool).

(** A request of [verify_credentials] as the dispatcher saw it: the user
    name and the password sent, and what came back. *)
Record credentials_request : Type := mkRequest {
  sent_username : string;
  sent_password : string;
  answer : credentials_response
}.

(** [verify_credentials]: [Some true], [Some false] or [None], and the
    request made, if any; [response] is what the dispatcher answers if it
    is asked. *)
Definition verify_credentials (username password : string)
    (response : credentials_response) : option bool * list credentials_request :=
  if negb (String.eqb username "") && negb (String.eqb password "") then
    let request := [mkRequest username password response] in
    match response with
    | CredentialsRaised => (None, request)
    | CredentialsReply true => (Some false, request)
    | CredentialsReply false => (Some true, request)
    end
  else (Some false, []).

(** What [get_credentials] asks of its environment: the login stored in
    the configuration, the positional arguments of the command line, the
    option [--no_validation], what the dispatcher answers if the first,
    respectively the second, call of [verify_credentials] asks it, and what
    is typed at the prompts ([None] when [input] or [getpass] raises; the
    password is asked only after a user name that is not empty). *)
Record credentials_env : Type := mkCredentialsEnv {
  config_username : string;
  config_password : string;
  cli_args : list string;
  no_validation : bool;
  first_response : credentials_response;
  typed_username : option string;
  typed_password : option string;
  second_response : credentials_response
}.

(** [get_credentials]: the pair it returns and the requests that were made
    to the dispatcher, in order. *)
Definition get_credentials (env : credentials_env)
  : (string * string) * list credentials_request :=
  let '(username, password) :=
    match cli_args env with
    | [u; p] => (u, p)
    | _ => (config_username env, config_password env)
    end in
  if no_validation env then ((username, password), [])
  else
    let '(ret, sent) := verify_credentials username password (first_response env) in
    match ret with
    | None => (("", ""), sent)
    | Some true => ((username, password), sent)
    | Some false =>
        match typed_username env with
        | None => (("", ""), sent)
        | Some username =>
            let typed :=
              if negb (String.eqb username "") then typed_password env
              else Some password in
            match typed with
            | None => (("", ""), sent)
            | Some password =>
                let '(ret2, sent2) :=
                  verify_credentials username password (second_response env) in
                match ret2 with
                | Some true => ((username, password), sent ++ sent2)
                | _ => (("", ""), sent ++ sent2)
                end
            end
        end
    end.

(** *** fastchess: [verify_fastchess], [setup_fastchess] *)

Definition FASTCHESS_SHA : string := "5e4b66b57ef790d68119f4bfdda4546bbab31d08".

(** A run of [fastchess --version]: whether starting it raised, its return
    code, and [short_sha], the group of the last line of its output that
    matched the pattern, empty when none did. *)
Record fastchess_probe : Type := mkProbe {
  probe_raised : bool;
  probe_returncode : Z;
  probe_short_sha : string
}.

Definition verify_fastchess (probe : fastchess_probe) (fastchess_sha : string) : bool :=
  if probe_raised probe then false
  else if negb (probe_returncode probe =? 0) then false
  else if (String.length (probe_short_sha probe) <? 7)%nat then false
  else if negb (String.prefix (probe_short_sha probe) fastchess_sha) then false
  else true.

(** What [setup_fastchess] asks of its environment: whether the binary is
    there, how its probe goes, whether deleting it raises, whether anything
    in the [try] block (download, unzip, make, tests, move) raises, and
    whether the binary is there afterwards and how its probe goes. *)
Record fastchess_env : Type := mkFastchessEnv {
  exists_before : bool;
  probe_before : fastchess_probe;
  unlink_raises : bool;
  build_raises : bool;
  exists_after : bool;
  probe_after : fastchess_probe
}.

(** [setup_fastchess]: its return value and whether it built fastchess from
    the sources. *)
Definition setup_fastchess (env : fastchess_env) : bool * bool :=
  if exists_before env && verify_fastchess (probe_before env) FASTCHESS_SHA
  then (true, false)
  else if exists_before env && unlink_raises env then (false, false)
  else if build_raises env then (false, true)
  else if exists_after env
       then (verify_fastchess (probe_after env) FASTCHESS_SHA, true)
       else (false, true).

(** *** The prefix of the key: [_alpha_numeric], [get_uuid] *)

(** For these two functions a Python [str] is the list of its code
    points. *)
Definition code_points (s : string) : list N :=
  N_of_ascii <$> list_ascii_of_string s.

(** [c.isspace()], the characters that [str.strip()] removes. *)
Definition is_space (c : N) : bool :=
  ((9 <=? c) && (c <=? 13) || (28 <=? c) && (c <=? 32) ||
   (c =? 0x85) || (c =? 0xA0) || (c =? 0x1680) ||
   (0x2000 <=? c) && (c <=? 0x200A) ||
   (c =? 0x2028) || (c =? 0x2029) || (c =? 0x202F) || (c =? 0x205F) ||
   (c =? 0x3000))%N.

Fixpoint lstrip (x : list N) : list N :=
  match x with
  | c :: x' => if is_space c then lstrip x' else x
  | [] => []
  end.

Definition strip (x : list N) : list N := rev (lstrip (rev (lstrip x))).

(** [c.isalnum()] for [ord(c) < 128]: a digit or a letter. *)
Definition is_ascii_alnum (c : N) : bool :=
  ((48 <=? c) && (c <=? 57) || (65 <=? c) && (c <=? 90) ||
   (97 <=? c) && (c <=? 122))%N.

(** [_alpha_numeric(x)]: [None] for [ValueError].  The test of [isalnum]
    is reached only for a text of ASCII characters, at least two of them. *)
Definition alpha_numeric (x : list N) : option (list N) :=
  let x := strip x in
  if decide (x = code_points "_hw") then Some x
  else if (length x <=? 1)%nat then None
  else if negb (forallb (fun c => c <? 128)%N x) || negb (forallb is_ascii_alnum x)
       then None
  else Some (take 8 x).

(** [get_uuid(options)], with [uuid4] the text of [uuid.uuid4()]. *)
Definition get_uuid (uuid_prefix hw_id uuid4 : list N) : list N :=
  let uuid_prefix :=
    if decide (uuid_prefix = code_points "_hw") then hw_id else uuid_prefix in
  take 8 uuid_prefix ++ drop 8 uuid4.

(** *** Compilers: [gcc_version], [clang_version], [detect_compilers] *)

Definition MIN_GCC_MAJOR : Z := 9.
Definition MIN_GCC_MINOR : Z := 3.
Definition MIN_CLANG_MAJOR : Z := 10.
Definition MIN_CLANG_MINOR : Z := 0.

(** A run of the compiler on [-E -dM -]: whether starting it raised,
    whether a line names [__clang_major__] (read by [gcc_version] only), the
    return code, and the three version macros as [int] reads them, [None]
    for a macro that was not printed or is not a number.  Output in which
    the line of a macro has fewer than three words, on which [split()[2]]
    raises, is not covered. *)
Record compiler_probe : Type := mkCompilerProbe {
  cc_raised : bool;
  cc_clang_macro : bool;
  cc_returncode : Z;
  cc_major : option Z;
  cc_minor : option Z;
  cc_patchlevel : option Z
}.

(** [(a, b) < (c, d)] on tuples of integers. *)
Definition pair_ltb (x y : Z * Z) : bool :=
  (x.1 <? y.1) || ((x.1 =? y.1) && (x.2 <? y.2)).

Definition gcc_version (probe : compiler_probe) : option (string * Z * Z * Z) :=
  if cc_raised probe then None
  else if cc_clang_macro probe then None
  else if negb (cc_returncode probe =? 0) then None
  else
    match cc_major probe, cc_minor probe, cc_patchlevel probe with
    | Some major, Some minor, Some patchlevel =>
        if pair_ltb (major, minor) (MIN_GCC_MAJOR, MIN_GCC_MINOR) then None
        else Some ("g++", major, minor, patchlevel)
    | _, _, _ => None
    end.

(** [clang_version], with [profdata_raises] for the run of llvm-profdata. *)
Definition clang_version (probe : compiler_probe) (profdata_raises : bool)
  : option (string * Z * Z * Z) :=
  if cc_raised probe then None
  else if negb (cc_returncode probe =? 0) then None
  else
    match cc_major probe, cc_minor probe, cc_patchlevel probe with
    | Some major, Some minor, Some patchlevel =>
        if pair_ltb (major, minor) (MIN_CLANG_MAJOR, MIN_CLANG_MINOR) then None
        else if profdata_raises then None
        else Some ("clang++", major, minor, patchlevel)
    | _, _, _ => None
    end.

(** [detect_compilers]: the dictionary, as the list of its items in the
    order of insertion. *)
Definition detect_compilers (gcc clang : compiler_probe) (profdata_raises : bool)
  : list (string * (string * Z * Z * Z)) :=
  match gcc_version gcc with Some v => [("g++", v)] | None => [] end ++
  match clang_version clang profdata_raises with
  | Some v => [("clang++", v)]
  | None => []
  end.

(** Steps 2c and 3 of [setup_parameters]: [None] when no compiler is
    usable, otherwise the default of the option [compiler]. *)
Definition default_compiler (compilers : list (string * (string * Z * Z * Z)))
  : option string :=
  match compilers.*1 with
  | [] => None
  | first :: _ as compiler_names =>
      if bool_decide ("g++" ∈ compiler_names) then Some "g++" else Some first
  end.

(** *** The configuration file: [validate] *)

(** The state of a [ConfigParser]: the options of the DEFAULT section and,
    by name, those of the other sections.  Option names are taken as
    [optionxform] leaves them, in lower case, which the names of the schema
    are. *)
Record config : Type := mkConfig {
  cfg_defaults : gmap string string;
  cfg_sections : gmap string (gmap string string)
}.

(** [not section or section == self.default_section]. *)
Definition is_default_section (section : string) : bool :=
  String.eqb section "" || String.eqb section "DEFAULT".

Definition has_section (c : config) (section : string) : bool :=
  bool_decide (is_Some (cfg_sections c !! section)).

(** The methods below return [None] where the method raises. *)
Definition add_section (c : config) (section : string) : option config :=
  if String.eqb section "DEFAULT" then None
  else if has_section c section then None
  else Some (mkConfig (cfg_defaults c) (<[section := ∅]> (cfg_sections c))).

Definition has_option (c : config) (section opt : string) : bool :=
  if is_default_section section
  then bool_decide (is_Some (cfg_defaults c !! opt))
  else
    match cfg_sections c !! section with
    | None => false
    | Some d =>
        bool_decide (is_Some (d !! opt))
        || bool_decide (is_Some (cfg_defaults c !! opt))
    end.

Definition set_option (c : config) (section opt value : string) : option config :=
  if is_default_section section
  then Some (mkConfig (<[opt := value]> (cfg_defaults c)) (cfg_sections c))
  else
    match cfg_sections c !! section with
    | None => None
    | Some d =>
        Some (mkConfig (cfg_defaults c)
                (<[section := <[opt := value]> d]> (cfg_sections c)))
    end.

(** [config.get(section, option)], without interpolation. *)
Definition get_option (c : config) (section opt : string) : option string :=
  match cfg_sections c !! section with
  | Some d =>
      match d !! opt with
      | Some value => Some value
      | None => cfg_defaults c !! opt
      end
  | None =>
      if String.eqb section "DEFAULT" then cfg_defaults c !! opt else None
  end.

(** [config.options(section)]: the names in the section and in DEFAULT. *)
Definition config_options (c : config) (section : string) : option (list string) :=
  match cfg_sections c !! section with
  | Some d => Some (map_to_list (d ∪ cfg_defaults c)).*1
  | None => None
  end.

Definition remove_option (c : config) (section opt : string) : option config :=
  if is_default_section section
  then Some (mkConfig (delete opt (cfg_defaults c)) (cfg_sections c))
  else
    match cfg_sections c !! section with
    | None => None
    | Some d =>
        Some (mkConfig (cfg_defaults c)
                (<[section := delete opt d]> (cfg_sections c)))
    end.

Definition remove_section (c : config) (section : string) : config :=
  mkConfig (cfg_defaults c) (delete section (cfg_sections c)).

(** The fourth component of an entry of the schema: a callable, by the
    values on which it does not raise, or a list of choices. *)
Inductive schema_type : Type :=
| TypeCallable (accepts : string -> bool)
| TypeChoices (choices : list string).

(** An entry of the schema: section, option, default, type, preprocessor. *)
Record schema_entry : Type := mkEntry {
  se_section : string;
  se_option : string;
  se_default : string;
  se_type : schema_type;
  se_preprocessor : option (string -> string)
}.

Definition schema_key (v : schema_entry) : string * string :=
  (se_section v, se_option v).

(** The body of the first loop of [validate], after the section was made
    sure of. *)
Definition validate_option (c : config) (v : schema_entry) : option config :=
  if negb (has_option c (se_section v) (se_option v))
  then set_option c (se_section v) (se_option v) (se_default v)
  else
    o ← get_option c (se_section v) (se_option v);
    co ← match se_preprocessor v with
         | Some preprocessor =>
             let o1 := preprocessor o in
             if decide (o1 <> o)
             then c ← set_option c (se_section v) (se_option v) o1; Some (c, o1)
             else Some (c, o)
         | None => Some (c, o)
         end;
    match se_type v with
    | TypeCallable accepts =>
        if accepts co.2 then Some co.1
        else set_option co.1 (se_section v) (se_option v) (se_default v)
    | TypeChoices choices =>
        if bool_decide (co.2 ∈ choices) then Some co.1
        else set_option co.1 (se_section v) (se_option v) (se_default v)
    end.

(** The body of the first loop of [validate]. *)
Definition validate_entry (c : config) (v : schema_entry) : option config :=
  c ← (if has_section c (se_section v) then Some c else add_section c (se_section v));
  validate_option c v.

Fixpoint validate_loop (schema : list schema_entry) (c : config) : option config :=
  match schema with
  | [] => Some c
  | v :: schema' => c ← validate_entry c v; validate_loop schema' c
  end.

(** The inner loop of the cleanup, over [config.options(section)]. *)
Fixpoint remove_unknown_options (schema_options : list (string * string))
    (section : string) (opts : list string) (c : config) : option config :=
  match opts with
  | [] => Some c
  | opt :: opts' =>
      c ← (if bool_decide ((section, opt) ∈ schema_options) then Some c
           else remove_option c section opt);
      remove_unknown_options schema_options section opts' c
  end.

(** The outer loop of the cleanup, over [config.sections()]. *)
Fixpoint cleanup_loop (schema_sections : list string)
    (schema_options : list (string * string)) (names : list string) (c : config)
  : option config :=
  match names with
  | [] => Some c
  | section :: names' =>
      c ← (if bool_decide (section ∈ schema_sections)
           then opts ← config_options c section;
                remove_unknown_options schema_options section opts c
           else Some (remove_section c section));
      cleanup_loop schema_sections schema_options names' c
  end.

(** [validate(config, schema)]: the configuration it leaves, [None] when
    it raises. *)
Definition validate (c : config) (schema : list schema_entry) : option config :=
  c ← validate_loop schema c;
  cleanup_loop (se_section <$> schema) (schema_key <$> schema)
    (map_to_list (cfg_sections c)).*1 c.

(** A value that passes the type of an entry. *)
Definition accepted (t : schema_type) (value : string) : bool :=
  match t with
  | TypeCallable accepts => accepts value
  | TypeChoices choices => bool_decide (value ∈ choices)
  end.

(** While the entry for option [o] of section [s] is processed, starting
    from the configuration [c0] whose section [s] held [d0]: the defaults
    are those of [c0], only section [s] was rewritten, in it only option
    [o], and the option now reads [value]. *)
Definition option_state (c0 : config) (s o : string) (d0 : gmap string string)
    (c : config) (value : string) : Prop :=
  cfg_defaults c = cfg_defaults c0 /\
  exists d, cfg_sections c = <[s := d]> (cfg_sections c0) /\
            (forall o', o' <> o -> d !! o' = d0 !! o') /\
            get_option c s o = Some value.

(** No section is stored under the name DEFAULT or the empty name, which
    the parser keeps for the defaults. *)
Definition plain_sections (c : config) : Prop :=
  forall s, is_Some (cfg_sections c !! s) -> is_default_section s = false.

(** What section [s] itself holds for option [o], the defaults left
    aside. *)
Definition stored (c : config) (s o : string) : option string :=
  match cfg_sections c !! s with
  | Some d => d !! o
  | None => None
  end.

(** The value of the option of an entry once the entry was processed: the
    default of the entry, written into its section, or a value that passes
    the type of the entry. *)
Definition settled_value (c : config) (v : schema_entry) (value : string) : Prop :=
  (value = se_default v /\ stored c (se_section v) (se_option v) = Some value) \/
  accepted (se_type v) value = true.

(** The run of a task by [fetch_and_handle_task] has started: the version
    check passed and the dispatcher assigned a task. *)
Definition task_started (env : task_env) : Prop :=
  verify_worker_version (env_version env) = Some true /\
  exists r t, env_task env = TaskAssigned r t.

(** The hashes of a worker whose games.py was edited. *)
Definition edited_hash (file : string) : option string :=
  if String.eqb file "games.py" then Some "sha384-eeee" else sample_hash file.

(** A configuration file with a wrong protocol, a prefix that is too short,
    an option and a section that the schema does not know, and no compiler. *)
Definition sample_config : config :=
  mkConfig ∅
    (<["login" := <["username" := "alice"]> (<["password" := "secret"]> ∅)]>
     (<["parameters" := <["protocol" := "ftp"]> (<["uuid_prefix" := "x"]>
                        (<["colour" := "blue"]> ∅))]>
     (<["obsolete" := <["key" := "value"]> ∅]> ∅))).

(** Some entries of the schema of [setup_parameters]. *)
Definition sample_schema : list schema_entry :=
  [ mkEntry "login" "username" "" (TypeCallable (fun _ => true)) None;
    mkEntry "login" "password" "" (TypeCallable (fun _ => true)) None;
    mkEntry "parameters" "protocol" "https" (TypeChoices ["http"; "https"]) None;
    mkEntry "parameters" "uuid_prefix" "_hw"
      (TypeCallable (fun x => bool_decide (is_Some (alpha_numeric (code_points x)))))
      None;
    mkEntry "parameters" "compiler" "g++" (TypeChoices ["g++"; "clang++"]) None ].


(* ===================================================================== *)
(** * Part II: properties                                                *)
(* ===================================================================== *)

Example contains_MAX_minus : contains "MAX" "max(1,min(3,MAX-1))" = true.
Proof. reflexivity. Qed.

Example contains_MAX_constant : contains "MAX" "4" = false.
Proof. reflexivity. Qed.

Example py_round_ties :
  py_round (5 # 2) = 2 /\ py_round (7 # 2) = 4 /\ py_round (-1 # 2) = 0 /\
  py_round (9 # 4) = 2 /\ py_round (11 # 4) = 3 /\ py_round (inject_Z 7) = 7.
Proof. repeat split; reflexivity. Qed.

(** ** Concurrency expression *)

Lemma concurrency_call_unparsed MAX x : concurrency_call MAX x None = None.
Proof. reflexivity. Qed.

(** C1, as amended: for an expression [x] whose value rounds to [v], the
    option parser never clamps.  It returns the pair [(x, v)] exactly when
    [v >= 1] and [v <= MAX] if the text of [x] contains MAX, [v <= MAX - 1]
    if it does not; in every other case it raises [ValueError]. *)
Theorem concurrency_call_accepts (MAX : Z) (x : string) (q : Q) :
  concurrency_call MAX x (Some q) =
    (let v := py_round q in
     if (1 <=? v) && (v <=? (if contains "MAX" x then MAX else MAX - 1))
     then Some (x, v) else None).
Proof.
  unfold concurrency_call; cbv zeta.
  generalize (py_round q) as v; intros v.
  destruct (contains "MAX" x); cbn [negb andb orb];
    repeat match goal with
      | |- context [Z.leb ?a ?b] => destruct (Z.leb_spec a b)
      | |- context [Z.geb ?a ?b] => destruct (Z.geb_spec a b)
      | |- context [Z.gtb ?a ?b] => destruct (Z.gtb_spec a b)
      end; cbn [negb andb orb]; try reflexivity; lia.
Qed.

Lemma concurrency_call_accepts_witness :
  concurrency_call 8 "MAX" (Some (inject_Z 8)) = Some ("MAX", 8) /\
  concurrency_call 8 "7" (Some (inject_Z 7)) = Some ("7", 7) /\
  concurrency_call 8 "8" (Some (inject_Z 8)) = None /\
  concurrency_call 8 "MAX+1" (Some (inject_Z 9)) = None /\
  concurrency_call 8 "MAX/3" (Some (8 # 3)) = Some ("MAX/3", 3).
Proof.
  rewrite !concurrency_call_accepts. repeat split; reflexivity.
Defined.

(** C1, as stated, fails for a constant equal to the number of CPUs: with
    four CPUs the expression "4" is rejected by the parser, where the clamp
    of the specification would accept it as 3. *)
Lemma concurrency_clamp_counterexample :
  concurrency_call 4 "4" (Some (inject_Z 4)) = None /\
  spec_concurrency_clamp 4 "4" (py_round (inject_Z 4)) = Some 3 /\
  snd <$> concurrency_call 4 "4" (Some (inject_Z 4))
    <> spec_concurrency_clamp 4 "4" (py_round (inject_Z 4)).
Proof. split; [reflexivity | split; [reflexivity | discriminate]]. Qed.

(** ** Integrity manifests *)

Section IntegrityFacts.

Variable text_hash : string -> option string.

Lemma generate_sri_loop_Some files (m m' : manifest) :
  generate_sri_loop text_hash files m = Some m' ->
  forall k,
    (k ∈ files -> exists h, text_hash k = Some h /\ m' !! k = Some (SStr h)) /\
    (k ∉ files -> m' !! k = m !! k).
Proof.
  revert m. induction files as [|file files IH]; intros m Hgen k; cbn in Hgen.
  - injection Hgen as <-. split; [intros Hk; inversion Hk | reflexivity].
  - destruct (text_hash file) as [h|] eqn:Hh; [|discriminate].
    destruct (IH _ Hgen k) as [Hin Hout].
    destruct (decide (k ∈ files)) as [Hk|Hk].
    + split; [intros _; exact (Hin Hk) | intros Hn; exfalso; apply Hn; now right].
    + split.
      * intros Hk'. apply elem_of_cons in Hk' as [->|Hk']; [|contradiction].
        exists h. split; [exact Hh|]. rewrite (Hout Hk). apply lookup_insert_eq.
      * intros Hn. rewrite (Hout Hk). apply lookup_insert_ne.
        intros ->. apply Hn. now left.
Qed.

Lemma generate_sri_loop_None files (m : manifest) :
  generate_sri_loop text_hash files m = None ->
  exists k, k ∈ files /\ text_hash k = None.
Proof.
  revert m. induction files as [|file files IH]; intros m Hgen; cbn in Hgen.
  - discriminate.
  - destruct (text_hash file) as [h|] eqn:Hh.
    + destruct (IH _ Hgen) as (k & Hk & Hnone). exists k. split; [now right | exact Hnone].
    + exists file. split; [now left | exact Hh].
Qed.

Lemma verify_sri_loop_true items (sri_ : manifest) :
  verify_sri_loop items sri_ = true <->
  forall k v, (k, v) ∈ items -> k <> "__version" -> sri_ !! k = Some v.
Proof.
  induction items as [|[k0 v0] items IH]; cbn.
  - split; [intros _ k v Hk; inversion Hk | reflexivity].
  - destruct (String.eqb_spec k0 "__version") as [->|Hne].
    + rewrite IH. split; intros H k v Hk Hv.
      * apply elem_of_cons in Hk as [[= -> ->]|Hk]; [contradiction | now apply H].
      * apply H; [now right | exact Hv].
    + destruct (sri_ !! k0) as [v_|] eqn:Hk0.
      * destruct (decide (v0 = v_)) as [<-|Hv0].
        -- rewrite IH. split; intros H k v Hk Hv.
           ++ apply elem_of_cons in Hk as [[= -> ->]|Hk]; [exact Hk0 | now apply H].
           ++ apply H; [now right | exact Hv].
        -- split; [discriminate|]. intros H.
           specialize (H k0 v0 ltac:(now left) Hne). congruence.
      * split; [discriminate|]. intros H.
        specialize (H k0 v0 ltac:(now left) Hne). congruence.
Qed.

Lemma FILE_LIST_not_version k : k ∈ FILE_LIST -> k <> "__version".
Proof.
  unfold FILE_LIST. intros Hk ->.
  repeat (apply elem_of_cons in Hk as [Hk|Hk]; [discriminate|]).
  inversion Hk.
Qed.

(** C7: [verify_sri] returns [True] if and only if [sri.txt] holds a
    dictionary in which, for every file of [FILE_LIST], the entry is the
    hash of that file as it is on disk; the "__version" entry plays no
    part. *)
Theorem verify_sri_iff (sri_txt : sri_file) :
  verify_sri text_hash sri_txt = true <->
  exists sri_ : manifest,
    sri_txt = SriDict sri_ /\
    forall k, k ∈ FILE_LIST ->
      exists h, text_hash k = Some h /\ sri_ !! k = Some (SStr h).
Proof.
  unfold verify_sri, generate_sri.
  destruct (generate_sri_loop text_hash FILE_LIST _) as [sri|] eqn:Hgen.
  - pose proof (generate_sri_loop_Some _ _ _ Hgen) as Hsri.
    destruct sri_txt as [| |sri_].
    + split; [discriminate | intros (? & [=] & _)].
    + split; [discriminate | intros (? & [=] & _)].
    + rewrite verify_sri_loop_true. split.
      * intros Hloop. exists sri_. split; [reflexivity|]. intros k Hk.
        destruct (Hsri k) as [Hin _]. destruct (Hin Hk) as (h & Hh & Hlook).
        exists h. split; [exact Hh|].
        apply Hloop; [now apply elem_of_map_to_list | now apply FILE_LIST_not_version].
      * intros (sri_' & [= <-] & Hall) k v Hkv Hne.
        apply elem_of_map_to_list in Hkv.
        destruct (Hsri k) as [Hin Hout].
        destruct (decide (k ∈ FILE_LIST)) as [Hk|Hk].
        -- destruct (Hin Hk) as (h & Hh & Hlook).
           destruct (Hall k Hk) as (h' & Hh' & Hlook'). congruence.
        -- rewrite (Hout Hk) in Hkv.
           apply lookup_singleton_Some in Hkv as [<- _]. contradiction.
  - destruct (generate_sri_loop_None _ _ Hgen) as (k & Hk & Hnone).
    split; [discriminate|]. intros (sri_ & _ & Hall).
    destruct (Hall k Hk) as (h & Hh & _). congruence.
Qed.

End IntegrityFacts.

Lemma verify_sri_iff_witness :
  verify_sri sample_hash (SriDict (<["__version" := SInt 280]> sample_sri)) = true.
Proof.
  apply verify_sri_iff. eexists. split; [reflexivity|].
  intros k Hk. unfold FILE_LIST in Hk.
  repeat (apply elem_of_cons in Hk as [->|Hk]; [eexists; split; reflexivity|]).
  inversion Hk.
Defined.

Example verify_sri_other_hash :
  verify_sri sample_hash (SriDict tampered_remote) = false.
Proof. reflexivity. Qed.

Example verify_sri_missing_file :
  verify_sri (fun file => if String.eqb file "games.py" then None else sample_hash file)
    (SriDict sample_sri) = false.
Proof. reflexivity. Qed.

(** *** The remote manifest *)

Lemma tainted_loop_true items (sri : manifest) :
  tainted_loop items sri = true <->
  exists k v, (k, v) ∈ items /\ sri !! k <> Some v.
Proof.
  unfold tainted_loop.
  enough (forall acc,
    fold_left
      (fun tainted kv =>
         match sri !! kv.1 with
         | None => true
         | Some v => if decide (kv.2 = v) then tainted else true
         end) items acc = true <->
    acc = true \/ exists k v, (k, v) ∈ items /\ sri !! k <> Some v) as H.
  { rewrite H. split; [intros [[=]|Hex]; exact Hex | intros Hex; now right]. }
  induction items as [|[k0 v0] items IH]; intros acc; cbn.
  - split; [intros ->; now left | intros [->|(k & v & Hk & _)]; [reflexivity | inversion Hk]].
  - rewrite IH. split.
    + intros [Hacc|(k & v & Hk & Hne)].
      * destruct (sri !! k0) as [v_|] eqn:Hk0.
        -- destruct (decide (v0 = v_)) as [<-|Hv].
           ++ now left.
           ++ right. exists k0, v0. split; [now left | congruence].
        -- right. exists k0, v0. split; [now left | congruence].
      * right. exists k, v. split; [now right | exact Hne].
    + intros [->|(k & v & Hk & Hne)].
      * left. destruct (sri !! k0) as [v_|]; [|reflexivity].
        now destruct (decide (v0 = v_)).
      * apply elem_of_cons in Hk as [[= -> ->]|Hk].
        -- left. destruct (sri !! k0) as [v_|]; [|reflexivity].
           destruct (decide (v0 = v_)) as [<-|Hv]; [congruence | reflexivity].
        -- right. exists k, v. split; [exact Hk | exact Hne].
Qed.

Lemma worker_at_remote_check remote st its :
  reaches_remote_check st ->
  worker remote st its =
    match verify_remote_sri (hashes st) (remote_sri st) with
    | Unknown => (Returned 1 AtRemoteSri, [], [])
    | VerifyRaised => (Crashed, [], [])
    | Verdict _ =>
        let '(why, _, passes) :=
          main_loop remote (fleet (default (mkOptions false false) (parameters st)))
            its INITIAL_RETRY_TIME (initial_state (start_clock st)) in
        after_main_loop (release_returns st) why passes
    end.
Proof.
  intros (Hlock & (opts & Hopts & Honly) & (r & Hr & Hver) & Htool & Hfc).
  unfold worker. rewrite Hlock, Hopts, Honly, Hr, Htool, Hfc. cbn.
  destruct (verify_worker_version r) as [[|]|]; [reflexivity | contradiction | reflexivity].
Qed.

(** Where [verify_remote_sri] returns: (i) when the "__version" of the
    downloaded manifest is not [WORKER_VERSION], the result is [True]
    whatever the local files are, hashable or not; (ii) when it is
    [WORKER_VERSION] and the local manifest [sri] could be generated, the
    result is [False] exactly when some entry of the downloaded manifest is
    missing from [sri] or differs from it, and [True] otherwise; (iii) when
    the download fails the result is [None], and a start of [worker()] that
    gets to this check then returns 1 without entering the main loop. *)
Theorem verify_remote_sri_cases (text_hash : string -> option string) :
  (forall sri_ : manifest,
      remote_version sri_ <> SInt WORKER_VERSION ->
      verify_remote_sri text_hash (Downloaded sri_) = Verdict true) /\
  (forall sri_ sri : manifest,
      remote_version sri_ = SInt WORKER_VERSION ->
      generate_sri text_hash = Some sri ->
      (verify_remote_sri text_hash (Downloaded sri_) = Verdict false <->
         exists k v, sri_ !! k = Some v /\ sri !! k <> Some v) /\
      (verify_remote_sri text_hash (Downloaded sri_) = Verdict true <->
         forall k v, sri_ !! k = Some v -> sri !! k = Some v)) /\
  verify_remote_sri text_hash DownloadFailed = Unknown /\
  (forall remote st its,
      remote_sri st = DownloadFailed ->
      reaches_remote_check st ->
      worker remote st its = (Returned 1 AtRemoteSri, [], []) /\
      exit_code (worker remote st its).1.1 = Some 1).
Proof.
  split; [|split; [|split]].
  - intros sri_ Hver. unfold verify_remote_sri. fold (remote_version sri_).
    now destruct (decide (remote_version sri_ = SInt WORKER_VERSION)).
  - intros sri_ sri Hver Hgen. unfold verify_remote_sri. fold (remote_version sri_).
    rewrite Hgen. destruct (decide (remote_version sri_ = SInt WORKER_VERSION)); [|contradiction].
    destruct (tainted_loop (map_to_list sri_) sri) eqn:Ht; cbn.
    + apply tainted_loop_true in Ht as (k & v & Hk & Hne).
      apply elem_of_map_to_list in Hk.
      split; split; try discriminate; try reflexivity.
      * intros _. eauto.
      * intros Hall. exfalso. apply Hne. now apply Hall.
    + assert (forall k v, sri_ !! k = Some v -> sri !! k = Some v) as Hall.
      { intros k v Hk. destruct (decide (sri !! k = Some v)) as [|Hne]; [assumption|].
        exfalso. enough (tainted_loop (map_to_list sri_) sri = true) by congruence.
        apply tainted_loop_true. exists k, v. split; [now apply elem_of_map_to_list | exact Hne]. }
      split; split; try discriminate; try reflexivity.
      * intros (k & v & Hk & Hne). exfalso. apply Hne. now apply Hall.
      * intros _. exact Hall.
  - reflexivity.
  - intros remote st its Hdl Hreach.
    rewrite (worker_at_remote_check _ _ _ Hreach), Hdl. cbn. split; reflexivity.
Qed.

(** With a downloaded manifest of the worker's version and no local
    manifest, the membership test on [None] raises. *)
Lemma verify_remote_sri_unhashable text_hash (sri_ : manifest) :
  remote_version sri_ = SInt WORKER_VERSION ->
  generate_sri text_hash = None ->
  verify_remote_sri text_hash (Downloaded sri_) = VerifyRaised.
Proof.
  intros Hver Hgen. unfold verify_remote_sri. fold (remote_version sri_).
  rewrite Hgen. destruct (decide _); [|contradiction].
  destruct (map_to_list sri_) eqn:Hitems; [|reflexivity].
  apply map_to_list_empty_iff in Hitems. subst sri_. discriminate Hver.
Qed.

Example generate_sri_sample : generate_sri sample_hash = Some sample_sri.
Proof. reflexivity. Qed.

(** C6, a defect of the code: with updater.py unreadable, [generate_sri]
    returns [None]; against the master's manifest of the worker's own
    version, [verify_remote_sri] then does not return [False], nor any
    other of the three results its comment announces: the test
    [k not in sri] raises, and the exception ends [worker()].  On the same
    files [verify_sri], which tests [sri is None], returns [False]. *)
Lemma verify_remote_sri_unhashable_raises :
  generate_sri unreadable_hash = None /\
  remote_version sample_sri = SInt WORKER_VERSION /\
  (exists k v, sample_sri !! k = Some v) /\
  verify_remote_sri unreadable_hash (Downloaded sample_sri) = VerifyRaised /\
  verify_remote_sri unreadable_hash (Downloaded sample_sri) <> Verdict false /\
  (forall its,
     worker sample_remote
       (mkStartup false 0 (Some (mkOptions false false)) (Some (VersionIs 286)) true true
          unreadable_hash (Downloaded sample_sri) true) its
     = (Crashed, [], [])) /\
  verify_sri unreadable_hash (SriDict sample_sri) = false.
Proof.
  assert (verify_remote_sri unreadable_hash (Downloaded sample_sri) = VerifyRaised)
    as Hraised by (vm_compute; reflexivity).
  split; [vm_compute; reflexivity|]. split; [vm_compute; reflexivity|].
  split; [exists "worker.py", (SStr "sha384-wwww"); vm_compute; reflexivity|].
  split; [exact Hraised|]. split; [rewrite Hraised; discriminate|].
  split; [|vm_compute; reflexivity].
  intros its. rewrite worker_at_remote_check.
  - cbn [hashes remote_sri]. now rewrite Hraised.
  - repeat split; try reflexivity.
    + exists (mkOptions false false). split; reflexivity.
    + exists (VersionIs 286). split; [reflexivity | vm_compute; discriminate].
Qed.

Lemma verify_remote_sri_cases_witness :
  verify_remote_sri sample_hash (Downloaded stale_remote) = Verdict true /\
  verify_remote_sri sample_hash (Downloaded tampered_remote) = Verdict false /\
  verify_remote_sri sample_hash (Downloaded sample_sri) = Verdict true /\
  worker sample_remote (sample_startup (mkOptions false false) DownloadFailed) []
    = (Returned 1 AtRemoteSri, [], []).
Proof.
  destruct (verify_remote_sri_cases sample_hash) as (Hstale & Hsame & _ & Hfail).
  split; [|split; [|split]].
  - apply Hstale. vm_compute. discriminate.
  - apply (Hsame tampered_remote sample_sri); [reflexivity | reflexivity |].
    exists "worker.py", (SStr "sha384-xxxx"). split; [reflexivity | vm_compute; discriminate].
  - apply (Hsame sample_sri sample_sri); [reflexivity | reflexivity |].
    intros k v Hk. exact Hk.
  - apply Hfail; [reflexivity |].
    repeat split; try reflexivity.
    + exists (mkOptions false false). split; reflexivity.
    + exists (VersionIs 286). split; [reflexivity | vm_compute; discriminate].
Defined.

(** ** The heartbeat loop *)

Section HeartbeatFacts.

Variable remote : string.

Lemma heartbeat_body_early now response s :
  now <= last_updated s + seconds 120 ->
  heartbeat_body remote now response s = (s, []).
Proof.
  intros Hnow. unfold heartbeat_body.
  destruct (Z.ltb_spec (last_updated s + seconds 120) now); [lia | reflexivity].
Qed.

Lemma heartbeat_body_skip now response s :
  last_updated s + seconds 120 < now ->
  run s = None \/ task_id s = None ->
  heartbeat_body remote now response s = (set_last_updated now s, []).
Proof.
  intros Hnow Hidle. unfold heartbeat_body.
  destruct (Z.ltb_spec (last_updated s + seconds 120) now); [|lia].
  cbn. destruct Hidle as [-> | ->]; [reflexivity | now destruct (run s)].
Qed.

Lemma heartbeat_body_beat now response s r t :
  last_updated s + seconds 120 < now ->
  run s = Some r -> task_id s = Some t ->
  (heartbeat_body remote now response s).2 = [beat remote r t] /\
  last_updated (heartbeat_body remote now response s).1 = now /\
  alive (heartbeat_body remote now response s).1 = alive s.
Proof.
  intros Hnow Hr Ht. unfold heartbeat_body.
  destruct (Z.ltb_spec (last_updated s + seconds 120) now); [|lia].
  cbn. rewrite Hr, Ht.
  destruct response as [|[|] [[|]|]]; cbn; repeat split; reflexivity.
Qed.

Lemma heartbeat_body_alive now response s :
  alive (heartbeat_body remote now response s).1 = alive s.
Proof.
  unfold heartbeat_body.
  destruct (_ <? _); [|reflexivity]. cbn.
  destruct (run s), (task_id s); try reflexivity.
  destruct response as [|[|] [[|]|]]; reflexivity.
Qed.

Lemma heartbeat_body_only_when now response s e :
  e ∈ (heartbeat_body remote now response s).2 ->
  last_updated s + seconds 120 < now /\
  exists r t, run s = Some r /\ task_id s = Some t /\ e = beat remote r t.
Proof.
  destruct (Z.lt_ge_cases (last_updated s + seconds 120) now) as [Hnow|Hnow].
  - destruct (run s) as [r|] eqn:Hr, (task_id s) as [t|] eqn:Ht.
    + destruct (heartbeat_body_beat now response s r t Hnow Hr Ht) as (-> & _).
      intros He. apply list_elem_of_singleton in He. eauto 6.
    + rewrite heartbeat_body_skip by auto. intros He. inversion He.
    + rewrite heartbeat_body_skip by auto. intros He. inversion He.
    + rewrite heartbeat_body_skip by auto. intros He. inversion He.
  - rewrite heartbeat_body_early by lia. intros He. inversion He.
Qed.



End HeartbeatFacts.

Lemma ticking_quiet t0 n response : Forall quiet (ticking t0 n response).
Proof. unfold ticking. apply Forall_fmap, Forall_forall. intros i _. reflexivity. Qed.





Lemma writes_last_updated ws s :
  last_updated (fold_left apply_write ws s) = last_updated s.
Proof.
  revert s. induction ws as [|w ws IH]; intros s; cbn; [reflexivity|].
  rewrite IH. now destruct w.
Qed.

Lemma heartbeat_dead remote wakes s :
  alive s = false -> heartbeat remote wakes s = (s, []).
Proof. intros Hs. destruct wakes; cbn; [reflexivity | now rewrite Hs]. Qed.

(** The loop over two runs of wake-ups, one after the other. *)
Lemma heartbeat_app remote wakes1 wakes2 s :
  heartbeat remote (wakes1 ++ wakes2) s =
    let '(s1, beats1) := heartbeat remote wakes1 s in
    let '(s2, beats2) := heartbeat remote wakes2 s1 in
    (s2, beats1 ++ beats2).
Proof.
  revert s. induction wakes1 as [|w wakes1 IH]; intros s; cbn.
  - now destruct (heartbeat remote wakes2 s).
  - destruct (alive s) eqn:Halive.
    + destruct (heartbeat_body remote _ _ _) as [s2 b].
      rewrite IH. destruct (heartbeat remote wakes1 s2) as [s3 beats1].
      destruct (heartbeat remote wakes2 s3) as [s4 beats2].
      now rewrite app_assoc.
    + now rewrite (heartbeat_dead remote wakes2 s Halive).
Qed.

(** Undisturbed wake-ups up to 120 s after the time stamp change nothing. *)
Lemma heartbeat_early remote wakes s :
  Forall quiet wakes ->
  Forall (fun w => wake_now w <= last_updated s + seconds 120) wakes ->
  heartbeat remote wakes s = (s, []).
Proof.
  intros Hq Hall. induction Hq as [|w wakes Hw Hq IH]; [reflexivity|].
  apply Forall_cons in Hall as [Hw_now Hall]. cbn.
  destruct (alive s); [|reflexivity]. rewrite Hw. cbn.
  rewrite heartbeat_body_early by exact Hw_now. now rewrite (IH Hall).
Qed.

(** C10: at a wake-up at which the loop of [heartbeat], still running,
    finds the time stamp more than 120 s old, it sets the stamp to the
    clock reading, whatever the task.  With no task in place that is all
    this wake-up does, no beat is sent, and the loop goes on from the
    advanced stamp.  If a task is assigned afterwards, the loop sends
    nothing at the wake-up that finds it nor at any other undisturbed
    wake-up up to 120 s after that reading, and it sends the beat, once, at
    the first wake-up later than that, where the stamp advances again. *)
Theorem heartbeat_stamp_before_task_check (remote : string)
    (s : current_state) (w : wake) :
  alive s = true ->
  last_updated s + seconds 120 < wake_now w ->
  last_updated (heartbeat remote [w] s).1 = wake_now w /\
  (run (found w s) = None \/ task_id (found w s) = None ->
   let s' := set_last_updated (wake_now w) (found w s) in
   (forall wakes, heartbeat remote (w :: wakes) s = heartbeat remote wakes s') /\
   (forall r t before w_a after w_late,
      alive (found w s) = true ->
      Forall quiet before -> assigns r t w_a -> Forall quiet after -> quiet w_late ->
      Forall (fun w' => wake_now w' <= wake_now w + seconds 120)
        (before ++ w_a :: after) ->
      wake_now w + seconds 120 < wake_now w_late ->
      heartbeat remote (w :: before ++ w_a :: after) s
      = (set_task_id (Some t) (set_run (Some r) s'), []) /\
      (heartbeat remote (w :: before ++ w_a :: after ++ [w_late]) s).2
      = [beat remote r t] /\
      last_updated (heartbeat remote (w :: before ++ w_a :: after ++ [w_late]) s).1
      = wake_now w_late)).
Proof.
  intros Halive Hnow.
  assert (last_updated (found w s) + seconds 120 < wake_now w) as Hfound
    by (unfold found; now rewrite writes_last_updated).
  split.
  - cbn. rewrite Halive. fold (found w s).
    unfold heartbeat_body.
    destruct (Z.ltb_spec (last_updated (found w s) + seconds 120) (wake_now w)); [|lia].
    cbn. destruct (run (found w s)), (task_id (found w s)); try reflexivity.
    destruct (wake_response w) as [|[|] [[|]|]]; reflexivity.
  - intros Hidle s'.
    assert (forall wakes, heartbeat remote (w :: wakes) s = heartbeat remote wakes s')
      as Hfirst.
    { intros wakes. cbn. rewrite Halive. fold (found w s).
      rewrite heartbeat_body_skip by assumption. fold s'.
      now destruct (heartbeat remote wakes s'). }
    split; [exact Hfirst|].
    intros r t before w_a after w_late Halive' Hqb Ha Hqa Hql Hall Hlate.
    apply Forall_app in Hall as [Hbefore Hall].
    apply Forall_cons in Hall as [Hnow_a Hafter].
    set (assigned := set_task_id (Some t) (set_run (Some r) s')).
    assert (heartbeat remote before s' = (s', [])) as Hb
      by (apply heartbeat_early; assumption).
    assert (heartbeat remote (w_a :: after) s' = (assigned, [])) as Hwa.
    { cbn. change (alive s') with (alive (found w s)). rewrite Halive'.
      rewrite Ha. cbn [fold_left apply_write]. fold assigned.
      rewrite heartbeat_body_early by exact Hnow_a.
      now rewrite (heartbeat_early remote after assigned Hqa Hafter). }
    assert (heartbeat remote (before ++ w_a :: after) s' = (assigned, [])) as Hwait
      by (now rewrite heartbeat_app, Hb, Hwa).
    split; [now rewrite Hfirst|].
    rewrite Hfirst.
    replace (before ++ w_a :: after ++ [w_late])
      with ((before ++ w_a :: after) ++ [w_late])
      by (now rewrite <- app_assoc).
    rewrite heartbeat_app, Hwait. cbn.
    change (alive s') with (alive (found w s)). rewrite Halive', Hql. cbn.
    destruct (heartbeat_body_beat remote (wake_now w_late) (wake_response w_late)
                assigned r t Hlate eq_refl eq_refl) as (Hbeat & Hstamp & _).
    destruct (heartbeat_body remote _ _ assigned) as [s2 b]. cbn in *.
    subst b. split; [reflexivity | exact Hstamp].
Qed.

Lemma heartbeat_stamp_before_task_check_witness :
  let first := mkWake [] (seconds 121) BeatRaised in
  let before := ticking (seconds 121) 8 BeatRaised in
  let after := ticking (seconds 130) 111 BeatRaised in
  let late := mkWake [] (seconds 242) BeatRaised in
  last_updated (heartbeat sample_remote [first] (initial_state 0)).1 = seconds 121 /\
  heartbeat sample_remote (first :: before ++ sample_assignment :: after)
    (initial_state 0)
  = (sample_busy (seconds 121), []) /\
  (heartbeat sample_remote (first :: before ++ sample_assignment :: after ++ [late])
     (initial_state 0)).2
  = [beat sample_remote sample_run 3] /\
  last_updated
    (heartbeat sample_remote (first :: before ++ sample_assignment :: after ++ [late])
       (initial_state 0)).1
  = seconds 242.
Proof.
  intros first before after late.
  assert (last_updated (initial_state 0) + seconds 120 < wake_now first) as Hnow
    by (vm_compute; reflexivity).
  destruct (heartbeat_stamp_before_task_check sample_remote (initial_state 0) first
              eq_refl Hnow) as (Hstamp & Hrest).
  destruct (Hrest (or_introl eq_refl)) as (_ & Hassigned).
  split; [exact Hstamp|].
  apply (Hassigned sample_run 3 before sample_assignment after late).
  - reflexivity.
  - apply ticking_quiet.
  - reflexivity.
  - apply ticking_quiet.
  - reflexivity.
  - apply Forall_app. split; [|apply Forall_cons; split; [vm_compute; discriminate|]].
    + unfold before, ticking. apply Forall_fmap, Forall_forall. intros i Hi.
      apply elem_of_seq in Hi. cbn. unfold seconds. lia.
    + unfold after, ticking. apply Forall_fmap, Forall_forall. intros i Hi.
      apply elem_of_seq in Hi. cbn. unfold seconds. lia.
  - vm_compute. reflexivity.
Defined.

(** ** One task *)

Section TaskFacts.

Variable remote : string.

Lemma get_exception_loop_frame files name (all : list frame) cur message later :
  (exists f, f ∈ all /\ message = exception_message name f) ->
  cur ∈ all -> later ⊆ all ->
  exists f, f ∈ all /\
    get_exception_loop files name cur message later = exception_message name f.
Proof.
  revert cur message. induction later as [|next later IH]; intros cur message Hmsg Hcur Hlater;
    cbn; destruct (bool_decide (frame_file cur ∈ files)); eauto.
  apply IH; eauto.
  - apply Hlater. now left.
  - intros f Hf. apply Hlater. now right.
Qed.

Lemma get_exception_frame files name (tb : frame * list frame) :
  exists f, f ∈ tb.1 :: tb.2 /\
    get_exception files name tb = exception_message name f.
Proof.
  unfold get_exception. apply get_exception_loop_frame.
  - exists tb.1. split; [now left | reflexivity].
  - now left.
  - intros f Hf. now right.
Qed.

Lemma run_concurrent_beats cs s :
  Forall (fun e => exists r t, e = beat remote r t) (run_concurrent remote cs s).2.
Proof.
  revert s. induction cs as [|c cs IH]; intros s; cbn; [constructor|].
  destruct (apply_concurrent remote s c) as [s1 e1] eqn:Hc.
  specialize (IH s1). destruct (run_concurrent remote cs s1) as [s2 e2]. cbn in *.
  apply Forall_app. split; [|exact IH].
  destruct c as [signame|now response]; cbn in Hc.
  - injection Hc as <- <-. constructor.
  - apply Forall_forall. intros e He.
    replace e1 with (heartbeat_body remote now response s).2 in He by now rewrite Hc.
    apply heartbeat_body_only_when in He as (_ & r & t & _ & _ & ->). eauto.
Qed.

Lemma beats_no_pgn_effects effects :
  Forall (fun e => exists r t, e = beat remote r t) effects ->
  pgn_effects effects = [] /\ reports effects = [].
Proof.
  induction 1 as [|e effects (r & t & ->) _ [IH1 IH2]]; [split; reflexivity|].
  unfold pgn_effects, reports in *. cbn. now rewrite IH1, IH2.
Qed.

Lemma upload_pgn_no_reports r t message pgn :
  reports (upload_pgn remote r t message pgn) = [].
Proof.
  unfold upload_pgn.
  destruct (pgn_name pgn), (pgn_disk pgn) as [file_content|]; try reflexivity.
  destruct (length file_content =? 0)%nat; [reflexivity|].
  destruct (has_spsa r); [reflexivity|]. cbn.
  destruct (decide _); reflexivity.
Qed.

Lemma fetch_and_handle_task_assigned env s r t :
  verify_worker_version (env_version env) = Some true ->
  env_task env = TaskAssigned r t ->
  fetch_and_handle_task remote env s =
    (let during := run_concurrent remote (env_concurrent env)
                     (set_task_id (Some t) (set_run (Some r) s)) in
     let '(success, server_message, api, s2) :=
       handle_games remote (env_games env) during.1 in
     (set_run None (set_task_id None s2), success,
      during.2
      ++ (if success then [] else [Post api (ReportPayload (run_id r) t server_message)])
      ++ upload_pgn remote r t server_message (env_pgn env))).
Proof.
  intros Hver Htask. unfold fetch_and_handle_task. rewrite Hver, Htask. cbn.
  destruct (run_concurrent remote _ _) as [s1 beats]. reflexivity.
Qed.

End TaskFacts.

(** C3: when [run_games] raises, the pass returns [False] and sends exactly
    one report, and the class of the exception fixes where it goes and what
    becomes of [alive]: [FatalException] goes to /api/failed_task and clears
    [alive]; [RunException] goes to /api/stop_run and [WorkerException] to
    /api/failed_task, both leaving [alive] as the match left it; any other
    exception goes to /api/failed_task with a message made of the name of
    its type, the file and line of an entry of its traceback and the worker
    version, and clears [alive]. *)
Theorem games_exception_report (remote : string) (env : task_env)
    (s : current_state) (r : run_t) (t : Z) (e : raised) :
  verify_worker_version (env_version env) = Some true ->
  env_task env = TaskAssigned r t ->
  env_games env = GamesRaised e ->
  let after_games := state_after_games remote r t (env_concurrent env) s in
  let result := fetch_and_handle_task remote env s in
  result.1.2 = false /\
  exists api message,
    reports result.2 = [Post api (ReportPayload (run_id r) t message)] /\
    match exc_class e with
    | FatalException =>
        api = remote +:+ "/api/failed_task" /\ message = exc_str e /\
        alive result.1.1 = false
    | RunException =>
        api = remote +:+ "/api/stop_run" /\ message = exc_str e /\
        alive result.1.1 = alive after_games
    | WorkerException =>
        api = remote +:+ "/api/failed_task" /\ message = exc_str e /\
        alive result.1.1 = alive after_games
    | OtherException name =>
        api = remote +:+ "/api/failed_task" /\
        alive result.1.1 = false /\
        exists f, f ∈ (exc_tb e).1 :: (exc_tb e).2 /\
          message = "Exception " +:+ name +:+ " at " +:+ frame_file f +:+ ":" +:+
                    str_of_int (frame_line f) +:+ " WorkerVersion: 286"
    end.
Proof.
  intros Hver Htask Hgames after_games result. subst result after_games.
  unfold state_after_games.
  rewrite (fetch_and_handle_task_assigned remote env s r t Hver Htask). cbv zeta.
  pose proof (run_concurrent_beats remote (env_concurrent env)
                (set_task_id (Some t) (set_run (Some r) s))) as Hbeats.
  apply beats_no_pgn_effects in Hbeats as [_ Hbeats].
  destruct (run_concurrent remote _ _) as [s1 beats]. cbn [fst snd] in *.
  rewrite Hgames. unfold handle_games.
  assert (forall api message,
    reports (beats ++ [Post api (ReportPayload (run_id r) t message)]
             ++ upload_pgn remote r t message (env_pgn env))
    = [Post api (ReportPayload (run_id r) t message)]) as Hreports.
  { intros api message. unfold reports in *.
    rewrite List.filter_app, Hbeats. cbn.
    now rewrite (upload_pgn_no_reports remote). }
  destruct (exc_class e) as [| | |name]; cbn [fst snd]; (split; [reflexivity|]).
  - eexists _, _. split; [apply Hreports | repeat split; reflexivity].
  - eexists _, _. split; [apply Hreports | repeat split; reflexivity].
  - eexists _, _. split; [apply Hreports | repeat split; reflexivity].
  - eexists _, _. split; [apply Hreports|]. split; [reflexivity | split; [reflexivity|]].
    destruct (get_exception_frame ["worker.py"; "games.py"] name (exc_tb e)) as (f & Hf & ->).
    exists f. split; [exact Hf | reflexivity].
Qed.

Lemma games_exception_report_witness :
  let env := sample_env
               (GamesRaised (mkRaised RunException "Both engines crashed" sample_traceback))
               sample_pgn in
  let result := fetch_and_handle_task sample_remote env (initial_state 0) in
  result.1.2 = false /\
  exists api message,
    reports result.2 = [Post api (ReportPayload "R1" 3 message)] /\
    api = sample_remote +:+ "/api/stop_run" /\ message = "Both engines crashed" /\
    alive result.1.1 = true.
Proof.
  exact (games_exception_report sample_remote
           (sample_env
              (GamesRaised (mkRaised RunException "Both engines crashed" sample_traceback))
              sample_pgn)
           (initial_state 0) sample_run 3 _ eq_refl eq_refl eq_refl).
Defined.

Example unexpected_exception_report :
  fetch_and_handle_task sample_remote
    (sample_env (GamesRaised (mkRaised (OtherException "KeyError") "'bench'" sample_traceback))
       (mkPgn None None None))
    (initial_state 0)
  = (mkState None None false 0, false,
     [Post "https://tests.stockfishchess.org:443/api/failed_task"
        (ReportPayload "R1" 3 "Exception KeyError at games.py:1502 WorkerVersion: 286")]).
Proof. reflexivity. Qed.

Example signal_during_games :
  fetch_and_handle_task sample_remote
    (mkTaskEnv (VersionIs 286) (TaskAssigned sample_run 3) [SignalArrives "SIGINT"]
       (GamesRaised (mkRaised FatalException "Terminated by signal SIGINT." sample_traceback))
       (mkPgn None None None))
    (initial_state 0)
  = (mkState None None false 0, false,
     [Post "https://tests.stockfishchess.org:443/api/failed_task"
        (ReportPayload "R1" 3 "Terminated by signal SIGINT.")]).
Proof. reflexivity. Qed.

(** *** The PGN file *)

(** The name of the gzip member: [gzip_fname] on the file name that
    [upload_pgn_data] hands to [gzip.GzipFile]. *)

Lemma contains_slash_cons c s :
  contains "/" (String c s) = Ascii.eqb c "/" || contains "/" s.
Proof.
  change (contains "/" (String c s))
    with (String.prefix "/" (String c s) || contains "/" s).
  f_equal. cbn [String.prefix].
  destruct (Ascii.ascii_dec "/" c) as [<-|Hne].
  - now destruct s.
  - destruct (Ascii.eqb_spec c "/") as [->|_]; [contradiction | reflexivity].
Qed.

Lemma contains_slash_app s x :
  contains "/" (s +:+ x) = contains "/" s || contains "/" x.
Proof.
  induction s as [|c s IH].
  - cbn. now destruct x.
  - change (String c s +:+ x) with (String c (s +:+ x)).
    rewrite !contains_slash_cons, IH. now rewrite orb_assoc.
Qed.

Lemma basename_plain x : contains "/" x = false -> basename x = x.
Proof.
  destruct x as [|c x]; [reflexivity|]. rewrite contains_slash_cons. cbn [basename].
  now intros ->.
Qed.

Lemma basename_app s x :
  contains "/" x = false -> basename (s +:+ x) = basename s +:+ x.
Proof.
  intros Hx. induction s as [|c s IH]; [now apply basename_plain|].
  change (String c s +:+ x) with (String c (s +:+ x)). cbn [basename].
  rewrite contains_slash_app, Hx, orb_false_r.
  destruct (Ascii.eqb c "/" || contains "/" s); [exact IH | reflexivity].
Qed.

Lemma substring_skip s x n :
  substring (String.length s) n (s +:+ x) = substring 0 n x.
Proof. induction s as [|c s IH]; [reflexivity | exact IH]. Qed.

Lemma substring_take s x :
  substring 0 (String.length s) (s +:+ x) = s.
Proof.
  induction s as [|c s IH].
  - now destruct x.
  - change (String c s +:+ x) with (String c (s +:+ x)).
    cbn [String.length substring]. now rewrite IH.
Qed.

Lemma append_assoc s x y : s +:+ x +:+ y = (s +:+ x) +:+ y.
Proof.
  induction s as [|c s IH]; [reflexivity|].
  change (String c (s +:+ x +:+ y) = String c ((s +:+ x) +:+ y)). now rewrite IH.
Qed.

Lemma length_append s x :
  String.length (s +:+ x) = (String.length s + String.length x)%nat.
Proof.
  induction s as [|c s IH]; [reflexivity|].
  change (S (String.length (s +:+ x)) = S (String.length s + String.length x)).
  now rewrite IH.
Qed.

Lemma gzip_fname_gz s x :
  contains "/" x = false ->
  gzip_fname (s +:+ x +:+ ".gz") = basename s +:+ x.
Proof.
  intros Hx. unfold gzip_fname.
  rewrite basename_app by (now rewrite contains_slash_app, Hx).
  rewrite append_assoc.
  set (name := basename s +:+ x).
  replace (String.length (name +:+ ".gz") - 3)%nat with (String.length name)
    by (rewrite length_append; cbn; lia).
  rewrite (substring_skip name ".gz" 3), (substring_take name ".gz"). reflexivity.
Qed.

Lemma string_of_uint_no_slash d :
  contains "/" (DecimalString.NilEmpty.string_of_uint d) = false.
Proof. induction d; cbn [DecimalString.NilEmpty.string_of_uint]; [reflexivity|..];
  rewrite contains_slash_cons; exact IHd. Qed.

Lemma str_of_int_no_slash t : contains "/" (str_of_int t) = false.
Proof.
  unfold str_of_int, DecimalString.NilZero.string_of_int, DecimalString.NilZero.string_of_uint.
  destruct (Z.to_int t) as [d|d].
  - destruct d; try reflexivity; apply string_of_uint_no_slash.
  - rewrite contains_slash_cons. cbn [Ascii.eqb orb].
    destruct d; try reflexivity; apply string_of_uint_no_slash.
Qed.

Lemma gzip_fname_pgn rid t :
  gzip_fname (rid +:+ "-" +:+ str_of_int t +:+ ".pgn.gz")
  = basename rid +:+ "-" +:+ str_of_int t +:+ ".pgn".
Proof.
  change ".pgn.gz" with (".pgn" +:+ ".gz").
  rewrite (append_assoc (str_of_int t)), (append_assoc "-").
  apply gzip_fname_gz.
  rewrite !contains_slash_app, str_of_int_no_slash. reflexivity.
Qed.

Lemma pgn_effects_upload_pgn remote r t message pgn :
  pgn_effects (upload_pgn remote r t message pgn) = upload_pgn remote r t message pgn.
Proof.
  unfold upload_pgn.
  destruct (pgn_name pgn), (pgn_disk pgn) as [file_content|]; try reflexivity.
  destruct (length file_content =? 0)%nat; [reflexivity|].
  destruct (has_spsa r); [reflexivity|]. cbn.
  destruct (decide _); reflexivity.
Qed.

(** C4, as amended: after a task that was assigned, when the runner named a
    PGN file and that file exists and is not empty, the file is deleted,
    and before that, unless the run is SPSA, it is uploaded to
    /api/upload_pgn if and only if [hex] of the CRC-32 of its bytes is the
    CRC the runner recorded; the gzip member of the upload is named
    run-task.pgn, the file name run-task.pgn.gz given to [gzip.GzipFile]
    without its ".gz" (and without what precedes the last slash of the run
    id, should it have one); when no file was named, or it does not exist,
    or it is empty, nothing is uploaded and nothing is deleted. *)
Theorem pgn_upload_rule (remote : string) (env : task_env) (s : current_state)
    (r : run_t) (t : Z) :
  verify_worker_version (env_version env) = Some true ->
  env_task env = TaskAssigned r t ->
  let pgn := env_pgn env in
  let result := fetch_and_handle_task remote env s in
  match pgn_name pgn, pgn_disk pgn with
  | Some name, Some (b :: bs) =>
      exists message,
        pgn_effects result.2 =
          (if has_spsa r then []
           else if decide (Some (hex (crc32 (b :: bs))) = pgn_CRC pgn)
                then [pgn_post remote r t message (b :: bs)]
                else [])
          ++ [Unlink name]
  | _, _ => pgn_effects result.2 = []
  end /\
  (contains "/" (run_id r) = false ->
   pgn_member r t = run_id r +:+ "-" +:+ str_of_int t +:+ ".pgn").
Proof.
  intros Hver Htask pgn result. subst result pgn.
  split; [|intros Hplain; unfold pgn_member; now rewrite basename_plain].
  rewrite (fetch_and_handle_task_assigned remote env s r t Hver Htask). cbv zeta.
  pose proof (run_concurrent_beats remote (env_concurrent env)
                (set_task_id (Some t) (set_run (Some r) s))) as Hbeats.
  apply beats_no_pgn_effects in Hbeats as [Hbeats _].
  destruct (run_concurrent remote _ _) as [s1 beats]. cbn [fst snd] in *.
  destruct (handle_games remote (env_games env) s1) as [[[success message] api] s2].
  cbn [fst snd].
  assert (pgn_effects
            (beats ++ (if success then [] else [Post api (ReportPayload (run_id r) t message)])
             ++ upload_pgn remote r t message (env_pgn env))
          = upload_pgn remote r t message (env_pgn env)) as ->.
  { unfold pgn_effects in *. rewrite !List.filter_app, Hbeats.
    destruct success; cbn; apply pgn_effects_upload_pgn. }
  unfold upload_pgn.
  destruct (pgn_name (env_pgn env)) as [name|]; [|reflexivity].
  destruct (pgn_disk (env_pgn env)) as [[|b bs]|]; [reflexivity| |reflexivity].
  exists message. cbn. destruct (has_spsa r); [reflexivity|]. cbn.
  unfold pgn_post, pgn_member. rewrite gzip_fname_pgn.
  destruct (decide _); reflexivity.
Qed.

Lemma pgn_upload_rule_witness :
  let result := fetch_and_handle_task sample_remote (sample_env GamesReturned sample_pgn)
                  (initial_state 0) in
  (exists message,
    pgn_effects result.2 =
      [Post (sample_remote +:+ "/api/upload_pgn")
         (PgnPayload "R1" 3 message (mkPgnBody "R1-3.pgn" sample_pgn_bytes));
       Unlink "testing/R1-3.pgn"]) /\
  pgn_member sample_run 3 = "R1-3.pgn".
Proof.
  destruct (pgn_upload_rule sample_remote (sample_env GamesReturned sample_pgn)
              (initial_state 0) sample_run 3 eq_refl eq_refl) as [Hupload Hname].
  split; [exact Hupload | exact (Hname eq_refl)].
Defined.

Example pgn_crc_mismatch :
  fetch_and_handle_task sample_remote
    (sample_env GamesReturned
       (mkPgn (Some "testing/R1-3.pgn") (Some "0xaaa") (Some sample_pgn_bytes)))
    (initial_state 0)
  = (initial_state 0, true, [Unlink "testing/R1-3.pgn"]).
Proof. reflexivity. Qed.

(** C4, as stated, fails twice.  On an empty PGN file whose recorded CRC is
    that of no bytes, the run is not SPSA and the CRCs agree, yet the pass
    uploads nothing and deletes nothing.  And on a file that is uploaded,
    the gzip member is not named run-task.pgn.gz: the header carries
    R1-3.pgn for task 3 of run R1. *)
Lemma pgn_upload_counterexample :
  (let result := fetch_and_handle_task sample_remote (sample_env GamesReturned empty_pgn)
                   (initial_state 0) in
   has_spsa sample_run = false /\
   pgn_disk empty_pgn = Some [] /\
   pgn_CRC empty_pgn = Some (hex (crc32 [])) /\
   result.1.2 = true /\
   result.2 = [] /\
   (forall message body,
      Post (sample_remote +:+ "/api/upload_pgn") (PgnPayload "R1" 3 message body)
        ∉ result.2) /\
   (Unlink "testing/R1-3.pgn" ∉ result.2)) /\
  (let result := fetch_and_handle_task sample_remote (sample_env GamesReturned sample_pgn)
                   (initial_state 0) in
   pgn_CRC sample_pgn = Some (hex (crc32 sample_pgn_bytes)) /\
   result.2 =
     [Post (sample_remote +:+ "/api/upload_pgn")
        (PgnPayload "R1" 3 "" (mkPgnBody "R1-3.pgn" sample_pgn_bytes));
      Unlink "testing/R1-3.pgn"] /\
   (forall message source,
      Post (sample_remote +:+ "/api/upload_pgn")
        (PgnPayload "R1" 3 message (mkPgnBody "R1-3.pgn.gz" source)) ∉ result.2)).
Proof.
  split.
  - vm_compute. repeat split.
    + intros message body H. inversion H.
    + intros H. inversion H.
  - split; [vm_compute; reflexivity|]. split; [vm_compute; reflexivity|].
    intros message source H.
    assert ((fetch_and_handle_task sample_remote (sample_env GamesReturned sample_pgn)
               (initial_state 0)).2
            = [Post (sample_remote +:+ "/api/upload_pgn")
                 (PgnPayload "R1" 3 "" (mkPgnBody "R1-3.pgn" sample_pgn_bytes));
               Unlink "testing/R1-3.pgn"]) as Heq by (vm_compute; reflexivity).
    rewrite Heq in H.
    apply elem_of_cons in H as [H|H]; [discriminate H|].
    apply elem_of_cons in H as [H|H]; [discriminate H | inversion H].
Qed.

(** ** The flag [alive] *)

Section AliveFacts.

Variable remote : string.

Lemma run_concurrent_dead cs s :
  alive s = false -> alive (run_concurrent remote cs s).1 = false.
Proof.
  revert s. induction cs as [|c cs IH]; intros s Hs; cbn; [exact Hs|].
  destruct (apply_concurrent remote s c) as [s1 e1] eqn:Hc.
  assert (alive s1 = false) as Hs1.
  { destruct c as [signame|now response]; cbn in Hc.
    - now injection Hc as <- _.
    - replace s1 with (heartbeat_body remote now response s).1 by now rewrite Hc.
      now rewrite heartbeat_body_alive. }
  specialize (IH s1 Hs1). now destruct (run_concurrent remote cs s1).
Qed.

Lemma handle_games_dead outcome s :
  alive s = false -> alive (handle_games remote outcome s).2 = false.
Proof.
  intros Hs. unfold handle_games.
  destruct outcome as [|e]; [exact Hs|].
  destruct (exc_class e); cbn; auto.
Qed.

Lemma fetch_and_handle_task_dead env s :
  alive s = false -> alive (fetch_and_handle_task remote env s).1.1 = false.
Proof.
  intros Hs. unfold fetch_and_handle_task.
  set (s0 := if decide (_ = Some false) then clear_alive s else s).
  assert (alive s0 = false) as Hs0 by (subst s0; now destruct (decide _)).
  clearbody s0.
  destruct (verify_worker_version (env_version env)) as [[|]|]; try exact Hs0.
  destruct (env_task env) as [| | |r t]; try exact Hs0.
  pose proof (run_concurrent_dead (env_concurrent env)
                (set_task_id (Some t) (set_run (Some r) s0)) Hs0) as Hrun.
  destruct (run_concurrent remote _ _) as [s1 beats]. cbn in Hrun.
  pose proof (handle_games_dead (env_games env) s1 Hrun) as Hgames.
  destruct (handle_games remote _ s1) as [[[success message] api] s2].
  exact Hgames.
Qed.

Lemma loop_body_dead fleet it delay s :
  alive s = false -> alive (loop_body remote fleet it delay s).1.1 = false.
Proof.
  intros Hs. unfold loop_body.
  pose proof (fetch_and_handle_task_dead (it_env it) s Hs) as Hs1.
  destruct (fetch_and_handle_task remote (it_env it) s) as [[s1 success] effects].
  cbn in Hs1.
  destruct (it_fish_exit it); [reflexivity|].
  rewrite Hs1. exact Hs1.
Qed.

Lemma act_dead a s : alive s = false -> alive (act remote s a) = false.
Proof.
  intros Hs. destruct a as [signame|now response|w|fleet it delay]; cbn.
  - reflexivity.
  - now rewrite heartbeat_body_alive.
  - now destruct w.
  - now apply loop_body_dead.
Qed.

Lemma states_dead acts s :
  alive s = false ->
  alive <$> states remote acts s = replicate (S (length acts)) false.
Proof.
  revert s. induction acts as [|a acts IH]; intros s Hs; cbn; rewrite Hs; [reflexivity|].
  f_equal. apply IH. now apply act_dead.
Qed.

Lemma states_alive acts s :
  alive s = true ->
  exists n m, alive <$> states remote acts s = replicate (S n) true ++ replicate m false.
Proof.
  revert s. induction acts as [|a acts IH]; intros s Hs; cbn; rewrite Hs.
  - exists 0%nat, 0%nat. reflexivity.
  - destruct (alive (act remote s a)) eqn:Ha.
    + destruct (IH _ Ha) as (n & m & ->). exists (S n), m. reflexivity.
    + rewrite (states_dead acts _ Ha). exists 0%nat, (S (length acts)). reflexivity.
Qed.

End AliveFacts.

(** C8: [alive] is true in the state [worker()] creates; a step of the
    signal handler, of the heartbeat loop or of the main loop taken with
    [alive] false leaves it false; hence along any interleaving of such
    steps the values of [alive] are a run of true followed by a run of
    false: at most one change, from true to false. *)
Theorem alive_only_falls (remote : string) :
  (forall now, alive (initial_state now) = true) /\
  (forall a s, alive s = false -> alive (act remote s a) = false) /\
  (forall acts now,
      exists n m,
        alive <$> states remote acts (initial_state now)
        = replicate (S n) true ++ replicate m false).
Proof.
  split; [reflexivity | split].
  - intros a s. apply act_dead.
  - intros acts now. now apply states_alive.
Qed.

Lemma alive_only_falls_witness :
  alive (act sample_remote (clear_alive (initial_state 0)) (ActWrite (WriteRun None)))
    = false /\
  exists n m,
    alive <$> states sample_remote sample_history (initial_state 0)
    = replicate (S n) true ++ replicate m false.
Proof.
  destruct (alive_only_falls sample_remote) as (_ & Hdead & Htrace).
  split; [apply Hdead; reflexivity | apply Htrace].
Defined.

Example sample_history_alive :
  alive <$> states sample_remote sample_history (initial_state 0)
  = [true; true; true; false; false; false; false].
Proof. reflexivity. Qed.

(** ** The main loop *)

Section LoopFacts.

Variable remote : string.

Lemma loop_body_next fleet it delay s s1 p delay' :
  loop_body remote fleet it delay s = (s1, p, inr delay') ->
  it_fish_exit it = false /\
  ((pass_success p = false /\ pass_slept p = Some delay /\
    delay' = Z.min MAX_RETRY_TIME (delay * 2) /\ fleet = false) \/
   (pass_success p = true /\ pass_slept p = None /\ delay' = INITIAL_RETRY_TIME)).
Proof.
  unfold loop_body.
  destruct (fetch_and_handle_task remote (it_env it) s) as [[s0 success] effects].
  destruct (it_fish_exit it); [discriminate|].
  destruct (negb (alive s0)); [discriminate|].
  destruct success; cbn.
  - intros [= <- <- <-]. split; [reflexivity|]. right. repeat split.
  - destruct fleet; [discriminate|].
    intros [= <- <- <-]. split; [reflexivity|]. left. repeat split.
Qed.

Lemma loop_body_stop fleet it delay s s1 p why :
  loop_body remote fleet it delay s = (s1, p, inl why) ->
  pass_slept p = None /\ (why = StopFishExit <-> it_fish_exit it = true).
Proof.
  unfold loop_body.
  destruct (fetch_and_handle_task remote (it_env it) s) as [[s0 success] effects].
  destruct (it_fish_exit it).
  - intros [= <- <- <-]. split; [reflexivity | split; reflexivity].
  - destruct (negb (alive s0)).
    + intros [= <- <- <-]. split; [reflexivity | split; discriminate].
    + destruct success; cbn; [discriminate|].
      destruct fleet; [|discriminate].
      intros [= <- <- <-]. split; [reflexivity | split; discriminate].
Qed.

Lemma failure_streak_snoc hist p :
  failure_streak (hist ++ [p])
  = if pass_success p then 0%nat else S (failure_streak hist).
Proof. unfold failure_streak. rewrite rev_unit. reflexivity. Qed.

Lemma backoff_doubles (c : nat) :
  Z.min MAX_RETRY_TIME
    (Z.min MAX_RETRY_TIME (INITIAL_RETRY_TIME * 2 ^ Z.of_nat c) * 2)
  = Z.min MAX_RETRY_TIME (INITIAL_RETRY_TIME * 2 ^ Z.of_nat (S c)).
Proof.
  rewrite Nat2Z.inj_succ, Z.pow_succ_r by lia.
  assert (0 < 2 ^ Z.of_nat c) by (apply Z.pow_pos_nonneg; lia).
  unfold MAX_RETRY_TIME, INITIAL_RETRY_TIME. lia.
Qed.

(** The delay on entry is the one the failures so far ([hist]) call for;
    then so is every delay slept later. *)
Lemma main_loop_schedule fleet its :
  forall delay s hist why s' passes,
    delay = Z.min MAX_RETRY_TIME
              (INITIAL_RETRY_TIME * 2 ^ Z.of_nat (failure_streak hist)) ->
    main_loop remote fleet its delay s = (why, s', passes) ->
    forall (k : nat) p, passes !! k = Some p ->
      (forall d, pass_slept p = Some d ->
         pass_success p = false /\
         d = Z.min MAX_RETRY_TIME
               (INITIAL_RETRY_TIME
                * 2 ^ Z.of_nat (failure_streak (hist ++ take k passes)))) /\
      (pass_success p = false -> (S k < length passes)%nat -> is_Some (pass_slept p)).
Proof.
  induction its as [|it its IH]; intros delay s hist why s' passes Hdelay Hloop k p Hk;
    cbn in Hloop; destruct (alive s).
  1-2, 4: injection Hloop as <- <- <-; discriminate.
  destruct (loop_body remote fleet it delay s) as [[s1 p0] [w|delay']] eqn:Hbody.
  - injection Hloop as <- <- <-.
    destruct (loop_body_stop _ _ _ _ _ _ _ Hbody) as [Hslept _].
    destruct k as [|k]; [|discriminate]. injection Hk as <-.
    split; [intros d Hd; congruence | cbn; lia].
  - destruct (main_loop remote fleet its delay' s1) as [[why2 s2] ps] eqn:Hrec.
    injection Hloop as <- <- <-.
    destruct (loop_body_next _ _ _ _ _ _ _ Hbody) as [_ Hnext].
    destruct k as [|k].
    + injection Hk as <-. cbn [take]. rewrite app_nil_r.
      destruct Hnext as [(Hfail & Hslept & _)|(Hok & Hslept & _)].
      * split; [intros d Hd; split; congruence | intros _ _; rewrite Hslept; eauto].
      * split; [intros d Hd; congruence | congruence].
    + cbn in Hk. cbn [take].
      replace (hist ++ p0 :: take k ps) with ((hist ++ [p0]) ++ take k ps)
        by now rewrite <- app_assoc.
      assert (delay' = Z.min MAX_RETRY_TIME
                (INITIAL_RETRY_TIME * 2 ^ Z.of_nat (failure_streak (hist ++ [p0]))))
        as Hdelay'.
      { rewrite failure_streak_snoc.
        destruct Hnext as [(-> & _ & -> & _)|(-> & _ & ->)].
        - rewrite Hdelay. apply backoff_doubles.
        - reflexivity. }
      destruct (IH _ _ _ _ _ _ Hdelay' Hrec k p Hk) as [HA HB].
      split; [exact HA | intros Hfail Hlen; apply HB; [exact Hfail | cbn in Hlen; lia]].
Qed.


End LoopFacts.

(** C2: in a run of the main loop entered with [delay] at
    [INITIAL_RETRY_TIME], a pass that sleeps is a failed pass, and the delay
    it sleeps is [min(MAX_RETRY_TIME, INITIAL_RETRY_TIME * 2^c)] with [c]
    the number of failed passes in a row just before it, so the k-th failure
    in a row sleeps [min(900, 15 * 2^(k-1))]; a failed pass that is followed
    by another pass did sleep that delay; and the first sleep after a
    successful pass lasts [INITIAL_RETRY_TIME]. *)
Theorem backoff_schedule (remote : string) (fleet : bool) (its : list iteration)
    (s : current_state) (why : option stop) (s' : current_state) (passes : list pass) :
  main_loop remote fleet its INITIAL_RETRY_TIME s = (why, s', passes) ->
  forall (k : nat) p, passes !! k = Some p ->
    let expected :=
      Z.min MAX_RETRY_TIME
        (INITIAL_RETRY_TIME * 2 ^ Z.of_nat (failure_streak (take k passes))) in
    (forall d, pass_slept p = Some d -> pass_success p = false /\ d = expected) /\
    (pass_success p = false -> (S k < length passes)%nat ->
     pass_slept p = Some expected) /\
    (pass_success p = true ->
     forall p' d, passes !! S k = Some p' -> pass_slept p' = Some d ->
                  d = INITIAL_RETRY_TIME).
Proof.
  intros Hloop k p Hk expected.
  assert (INITIAL_RETRY_TIME
          = Z.min MAX_RETRY_TIME
              (INITIAL_RETRY_TIME * 2 ^ Z.of_nat (failure_streak []))) as Hinit
    by reflexivity.
  pose proof (main_loop_schedule remote fleet its _ s [] why s' passes Hinit Hloop)
    as Hsched. cbn [app] in Hsched.
  destruct (Hsched k p Hk) as [HA HB].
  split; [exact HA | split].
  - intros Hfail Hlen. destruct (HB Hfail Hlen) as [d Hd].
    destruct (HA d Hd) as [_ ->]. exact Hd.
  - intros Hok p' d Hk' Hd.
    destruct (Hsched (S k) p' Hk') as [HA' _].
    destruct (HA' d Hd) as [_ ->].
    rewrite (take_S_r _ _ _ Hk), failure_streak_snoc, Hok. reflexivity.
Qed.

Lemma backoff_schedule_witness :
  let passes :=
    (main_loop sample_remote false (sample_waits 8) INITIAL_RETRY_TIME (initial_state 0)).2 in
  passes !! 6%nat = Some (mkPass false [] (Some 900)) /\
  pass_slept (mkPass false [] (Some 900)) = Some (Z.min 900 (15 * 2 ^ 6)).
Proof.
  split; [reflexivity|].
  refine (proj1 (proj2
    (backoff_schedule sample_remote false (sample_waits 8) (initial_state 0)
       None (initial_state 0)
       (main_loop sample_remote false (sample_waits 8) INITIAL_RETRY_TIME
          (initial_state 0)).2
       eq_refl 6%nat (mkPass false [] (Some 900)) eq_refl)) eq_refl _).
  vm_compute. lia.
Defined.

Example backoff_of_eight_failures :
  pass_slept <$>
    (main_loop sample_remote false (sample_waits 8) INITIAL_RETRY_TIME (initial_state 0)).2
  = [Some 15; Some 30; Some 60; Some 120; Some 240; Some 480; Some 900; Some 900].
Proof. reflexivity. Qed.

Example backoff_reset_by_success :
  pass_slept <$>
    (main_loop sample_remote false
       (sample_waits 3
        ++ [mkIteration (sample_env GamesReturned sample_pgn) false None]
        ++ sample_waits 2)
       INITIAL_RETRY_TIME (initial_state 0)).2
  = [Some 15; Some 30; Some 60; None; Some 15; Some 30].
Proof. reflexivity. Qed.

(** ** The exit code *)



Example exit_code_fleet :
  (worker sample_remote (sample_startup (mkOptions false true) (Downloaded sample_sri))
     sample_day).1.1 = Returned 1 (AtMainLoop StopFleet).
Proof. reflexivity. Qed.

Example exit_code_signal :
  (worker sample_remote (sample_startup (mkOptions false false) (Downloaded sample_sri))
     [mkIteration waiting_env false (Some "SIGINT")]).1.1
  = Returned 1 (AtMainLoop StopCondition).
Proof. reflexivity. Qed.


(* ===================================================================== *)
(** * Part III: further properties of the code                           *)
(* ===================================================================== *)

(** ** Manifests written and read back *)

Lemma generate_sri_version text_hash (sri : manifest) :
  generate_sri text_hash = Some sri -> remote_version sri = SInt WORKER_VERSION.
Proof.
  intros Hgen. unfold remote_version.
  destruct (generate_sri_loop_Some text_hash _ _ _ Hgen "__version") as [_ Hout].
  rewrite Hout; [reflexivity|].
  intros Hin. now apply FILE_LIST_not_version in Hin.
Qed.

Lemma generate_sri_keys text_hash (sri : manifest) k v :
  generate_sri text_hash = Some sri -> sri !! k = Some v ->
  k = "__version" \/ k ∈ FILE_LIST.
Proof.
  intros Hgen Hk.
  destruct (decide (k ∈ FILE_LIST)) as [Hin|Hin]; [now right|]. left.
  destruct (generate_sri_loop_Some text_hash _ _ _ Hgen k) as [_ Hout].
  rewrite (Hout Hin) in Hk. now apply lookup_singleton_Some in Hk as [<- _].
Qed.

Lemma generate_sri_readable text_hash :
  (forall k, k ∈ FILE_LIST -> is_Some (text_hash k)) ->
  exists sri, generate_sri text_hash = Some sri.
Proof.
  intros Hall. destruct (generate_sri text_hash) as [sri|] eqn:Hgen; [eauto|].
  destruct (generate_sri_loop_None text_hash _ _ Hgen) as (k & Hk & Hnone).
  destruct (Hall k Hk) as [h Hh]. congruence.
Qed.

(** X1: [verify_sri] accepts the [sri.txt] that [write_sri] wrote earlier
    exactly when each of the three worker files can be hashed now and could
    be hashed then, with the same hash. *)
Theorem verify_sri_after_write_sri (then_hash now_hash : string -> option string) :
  verify_sri now_hash (write_sri then_hash) = true <->
  forall k, k ∈ FILE_LIST ->
    exists h, then_hash k = Some h /\ now_hash k = Some h.
Proof.
  unfold verify_sri, write_sri. split.
  - destruct (generate_sri now_hash) as [sri|] eqn:Hnow; [|discriminate].
    destruct (generate_sri then_hash) as [sri_|] eqn:Hthen; [|discriminate].
    rewrite verify_sri_loop_true. intros Hloop k Hk.
    destruct (generate_sri_loop_Some now_hash _ _ _ Hnow k) as [Hin _].
    destruct (generate_sri_loop_Some then_hash _ _ _ Hthen k) as [Hin_ _].
    destruct (Hin Hk) as (h & Hh & Hlook), (Hin_ Hk) as (h_ & Hh_ & Hlook_).
    exists h. split; [|exact Hh].
    assert (sri_ !! k = Some (SStr h)) as Heq.
    { apply Hloop; [now apply elem_of_map_to_list | now apply FILE_LIST_not_version]. }
    congruence.
  - intros Hall.
    destruct (generate_sri_readable now_hash) as [sri Hnow].
    { intros k Hk. destruct (Hall k Hk) as (h & _ & ->). eauto. }
    destruct (generate_sri_readable then_hash) as [sri_ Hthen].
    { intros k Hk. destruct (Hall k Hk) as (h & -> & _). eauto. }
    rewrite Hnow, Hthen. apply verify_sri_loop_true. intros k v Hkv Hne.
    apply elem_of_map_to_list in Hkv.
    destruct (generate_sri_keys _ _ _ _ Hnow Hkv) as [->|Hk]; [contradiction|].
    destruct (generate_sri_loop_Some now_hash _ _ _ Hnow k) as [Hin _].
    destruct (generate_sri_loop_Some then_hash _ _ _ Hthen k) as [Hin_ _].
    destruct (Hin Hk) as (h & Hh & Hlook), (Hin_ Hk) as (h_ & Hh_ & Hlook_).
    destruct (Hall k Hk) as (h0 & Hthen0 & Hnow0). congruence.
Qed.

(** X2: against the manifest that the master copy of the worker, of the
    same version, generates from its files, a worker whose three files can
    be hashed is found unmodified exactly when each of them has the hash of
    the master's file. *)
Theorem verify_remote_sri_against_master
    (master_hash text_hash : string -> option string) (master : manifest) :
  generate_sri master_hash = Some master ->
  (forall k, k ∈ FILE_LIST -> is_Some (text_hash k)) ->
  exists unmodified,
    verify_remote_sri text_hash (Downloaded master) = Verdict unmodified /\
    (unmodified = true <-> forall k, k ∈ FILE_LIST -> text_hash k = master_hash k).
Proof.
  intros Hmaster Hall.
  destruct (generate_sri_readable text_hash Hall) as [sri Hgen].
  unfold verify_remote_sri. fold (remote_version master).
  rewrite (generate_sri_version _ _ Hmaster), Hgen.
  destruct (decide (SInt WORKER_VERSION = SInt WORKER_VERSION)); [|contradiction].
  eexists. split; [reflexivity|].
  rewrite negb_true_iff, <- not_true_iff_false, tainted_loop_true. split.
  - intros Hclean k Hk.
    destruct (generate_sri_loop_Some master_hash _ _ _ Hmaster k) as [Hin_ _].
    destruct (generate_sri_loop_Some text_hash _ _ _ Hgen k) as [Hin _].
    destruct (Hin Hk) as (h & Hh & Hlook), (Hin_ Hk) as (h_ & Hh_ & Hlook_).
    destruct (decide (sri !! k = Some (SStr h_))) as [Heq|Hne]; [congruence|].
    exfalso. apply Hclean. exists k, (SStr h_).
    split; [now apply elem_of_map_to_list | exact Hne].
  - intros Hsame (k & v & Hkv & Hne). apply elem_of_map_to_list in Hkv. apply Hne.
    destruct (generate_sri_keys _ _ _ _ Hmaster Hkv) as [->|Hk].
    + pose proof (generate_sri_version _ _ Hmaster) as Hv_.
      pose proof (generate_sri_version _ _ Hgen) as Hv.
      unfold remote_version in Hv_, Hv. rewrite Hkv in Hv_. cbn in Hv_. subst v.
      destruct (sri !! "__version"); cbn in Hv;
        [congruence | unfold WORKER_VERSION in Hv; discriminate].
    + destruct (generate_sri_loop_Some master_hash _ _ _ Hmaster k) as [Hin_ _].
      destruct (generate_sri_loop_Some text_hash _ _ _ Hgen k) as [Hin _].
      destruct (Hin Hk) as (h & Hh & Hlook), (Hin_ Hk) as (h_ & Hh_ & Hlook_).
      specialize (Hsame k Hk). congruence.
Qed.

Lemma verify_remote_sri_against_master_witness :
  exists unmodified,
    verify_remote_sri edited_hash (Downloaded sample_sri) = Verdict unmodified /\
    (unmodified = true <-> forall k, k ∈ FILE_LIST -> edited_hash k = sample_hash k).
Proof.
  apply (verify_remote_sri_against_master sample_hash edited_hash sample_sri);
    [reflexivity|].
  intros k Hk. unfold FILE_LIST in Hk.
  repeat (apply elem_of_cons in Hk as [->|Hk]; [vm_compute; eauto|]).
  inversion Hk.
Defined.

Example edited_worker_is_tainted :
  verify_remote_sri edited_hash (Downloaded sample_sri) = Verdict false /\
  verify_sri edited_hash (write_sri sample_hash) = false /\
  verify_sri edited_hash (write_sri edited_hash) = true.
Proof. repeat split; reflexivity. Qed.

(** ** More on the heartbeat loop *)

Section HeartbeatMore.

Variable remote : string.

Lemma heartbeat_body_last_updated now response s :
  last_updated (heartbeat_body remote now response s).1
  = if last_updated s + seconds 120 <? now then now else last_updated s.
Proof.
  unfold heartbeat_body. destruct (_ <? _); [|reflexivity]. cbn.
  destruct (run s), (task_id s); try reflexivity.
  destruct response as [|[|] [[|]|]]; reflexivity.
Qed.

Lemma heartbeat_body_at_most_one now response s :
  (length (heartbeat_body remote now response s).2 <= 1)%nat.
Proof.
  unfold heartbeat_body. destruct (_ <? _); [|cbn; lia]. cbn.
  destruct (run s), (task_id s); try (cbn; lia).
  destruct response as [|[|] [[|]|]]; cbn; lia.
Qed.

Lemma heartbeat_body_monotone now response s :
  last_updated s <= last_updated (heartbeat_body remote now response s).1.
Proof.
  rewrite heartbeat_body_last_updated.
  destruct (Z.ltb_spec (last_updated s + seconds 120) now); unfold seconds in *; lia.
Qed.

(** No wake-up later than 120 s after the time stamp: nothing is sent,
    whatever the others write. *)
Lemma heartbeat_all_early wakes s :
  Forall (fun w => wake_now w <= last_updated s + seconds 120) wakes ->
  (heartbeat remote wakes s).2 = [].
Proof.
  intros Hall. revert s Hall. induction wakes as [|w wakes IH]; intros s Hall; cbn.
  - reflexivity.
  - apply Forall_cons in Hall as [Hw Hall].
    destruct (alive s); [|reflexivity].
    rewrite heartbeat_body_early by (rewrite writes_last_updated; exact Hw).
    specialize (IH (fold_left apply_write (wake_writes w) s)).
    rewrite writes_last_updated in IH. specialize (IH Hall).
    destruct (heartbeat remote wakes _) as [s3 beats]. exact IH.
Qed.

Lemma heartbeat_monotone wakes s :
  last_updated s <= last_updated (heartbeat remote wakes s).1.
Proof.
  revert s. induction wakes as [|w wakes IH]; intros s; cbn; [lia|].
  destruct (alive s); [|cbn; lia].
  pose proof (heartbeat_body_monotone (wake_now w) (wake_response w)
                (fold_left apply_write (wake_writes w) s)) as Hbody.
  rewrite writes_last_updated in Hbody.
  destruct (heartbeat_body remote _ _ _) as [s2 b]. cbn in Hbody.
  specialize (IH s2). destruct (heartbeat remote wakes s2) as [s3 beats]. cbn in *. lia.
Qed.

End HeartbeatMore.

(** X3: the heartbeat loop sends at most one beat during wake-ups whose
    clock readings lie within 120 seconds of each other, whatever the main
    thread and the signal handler write meanwhile and whatever the time
    stamp was before. *)
Theorem heartbeat_rate_limit (remote : string) (wakes : list wake)
    (s : current_state) (from : Z) :
  Forall (fun w => from <= wake_now w <= from + seconds 120) wakes ->
  (length (heartbeat remote wakes s).2 <= 1)%nat.
Proof.
  intros Hall. revert s. induction Hall as [|w wakes Hw Hall IH]; intros s; cbn.
  - lia.
  - destruct (alive s); [|cbn; lia].
    set (s1 := fold_left apply_write (wake_writes w) s).
    pose proof (heartbeat_body_at_most_one remote (wake_now w) (wake_response w) s1) as Hone.
    pose proof (heartbeat_body_last_updated remote (wake_now w) (wake_response w) s1) as Hstamp.
    destruct (Z.ltb_spec (last_updated s1 + seconds 120) (wake_now w)) as [Hlate|Hearly].
    + destruct (heartbeat_body remote _ _ s1) as [s2 b]. cbn in Hone, Hstamp.
      assert ((heartbeat remote wakes s2).2 = []) as Hrest.
      { apply heartbeat_all_early. rewrite Hstamp.
        eapply Forall_impl; [exact Hall|]. cbn. intros w' Hw'. lia. }
      destruct (heartbeat remote wakes s2) as [s3 beats]. cbn in *. subst beats.
      rewrite app_nil_r. exact Hone.
    + rewrite heartbeat_body_early by lia.
      specialize (IH s1). destruct (heartbeat remote wakes s1) as [s3 beats].
      exact IH.
Qed.

Lemma heartbeat_rate_limit_witness :
  (length (heartbeat sample_remote (ticking (seconds 100) 120 BeatRaised)
             (sample_busy 0)).2 <= 1)%nat.
Proof.
  apply (heartbeat_rate_limit sample_remote _ _ (seconds 101)).
  unfold ticking. apply Forall_fmap, Forall_forall. intros i Hi.
  apply elem_of_seq in Hi. cbn. unfold seconds. lia.
Defined.

Example heartbeat_one_beat_in_two_minutes :
  (heartbeat sample_remote (ticking (seconds 100) 120 BeatRaised) (sample_busy 0)).2
  = [beat sample_remote sample_run 3].
Proof. reflexivity. Qed.

(** X4: the time stamp [last_updated] never goes back: not in a step of
    the signal handler, of the heartbeat loop or of the main loop, and not
    over a whole run of the heartbeat loop, whatever the clock reads. *)
Theorem last_updated_never_decreases (remote : string) :
  (forall a s, last_updated s <= last_updated (act remote s a)) /\
  (forall wakes s, last_updated s <= last_updated (heartbeat remote wakes s).1).
Proof.
  assert (forall cs s, last_updated s <= last_updated (run_concurrent remote cs s).1)
    as Hconc.
  { induction cs as [|c cs IH]; intros s; cbn; [lia|].
    destruct (apply_concurrent remote s c) as [s1 e1] eqn:Hc.
    assert (last_updated s <= last_updated s1) as Hs1.
    { destruct c as [signame|now response]; cbn in Hc.
      - injection Hc as <- _. cbn. lia.
      - replace s1 with (heartbeat_body remote now response s).1 by now rewrite Hc.
        apply heartbeat_body_monotone. }
    specialize (IH s1). destruct (run_concurrent remote cs s1). cbn in *. lia. }
  assert (forall env s,
            last_updated s <= last_updated (fetch_and_handle_task remote env s).1.1)
    as Hfetch.
  { intros env s. unfold fetch_and_handle_task.
    set (s0 := if decide (_ = Some false) then clear_alive s else s).
    assert (last_updated s0 = last_updated s) as Hs0
      by (subst s0; now destruct (decide _)).
    clearbody s0.
    destruct (verify_worker_version (env_version env)) as [[|]|]; cbn; try lia.
    destruct (env_task env) as [| | |r t]; cbn; try lia.
    pose proof (Hconc (env_concurrent env) (set_task_id (Some t) (set_run (Some r) s0)))
      as Hrun.
    destruct (run_concurrent remote _ _) as [s1 beats]. cbn in Hrun.
    unfold handle_games.
    destruct (env_games env) as [|e]; [cbn; lia|].
    destruct (exc_class e); cbn; lia. }
  split; [|apply heartbeat_monotone].
  intros a s. destruct a as [signame|now response|w|fleet it delay]; cbn.
  - lia.
  - apply heartbeat_body_monotone.
  - destruct w; cbn; lia.
  - unfold loop_body. specialize (Hfetch (it_env it) s).
    destruct (fetch_and_handle_task remote (it_env it) s) as [[s1 success] effects].
    cbn in Hfetch.
    destruct (it_fish_exit it); [cbn; lia|].
    destruct (negb (alive s1)); [cbn; lia|].
    destruct (negb success); [|cbn; lia].
    destruct fleet; [cbn; lia|].
    destruct (it_sleep_signal it); cbn; lia.
Qed.

(** ** More on one task *)

Section TaskMore.

Variable remote : string.

Lemma handle_games_keeps_task outcome s :
  run (handle_games remote outcome s).2 = run s /\
  task_id (handle_games remote outcome s).2 = task_id s.
Proof.
  unfold handle_games. destruct outcome as [|e]; [split; reflexivity|].
  destruct (exc_class e); split; reflexivity.
Qed.

Lemma fetch_and_handle_task_not_started env s :
  ~ task_started env ->
  fetch_and_handle_task remote env s =
    (if decide (verify_worker_version (env_version env) = Some false)
     then clear_alive s else s, false, []).
Proof.
  intros Hnot. unfold fetch_and_handle_task, task_started in *.
  destruct (verify_worker_version (env_version env)) as [[|]|]; try reflexivity.
  destruct (env_task env) as [| | |r t]; try reflexivity.
  exfalso. apply Hnot. eauto.
Qed.

End TaskMore.

(** X5: when [fetch_and_handle_task] returns, no task is recorded in the
    shared state if it ran one, however [run_games] ended and whatever the
    heartbeat thread did meanwhile; and if it ran none, the record of the
    task is as it found it. *)
Theorem fetch_and_handle_task_clears_task (remote : string) (env : task_env)
    (s : current_state) :
  let s' := (fetch_and_handle_task remote env s).1.1 in
  (task_started env -> run s' = None /\ task_id s' = None) /\
  (~ task_started env -> run s' = run s /\ task_id s' = task_id s).
Proof.
  cbv zeta. split.
  - intros (Hver & r & t & Htask).
    rewrite (fetch_and_handle_task_assigned remote env s r t Hver Htask). cbv zeta.
    destruct (run_concurrent remote _ _) as [s1 beats]. cbn [fst snd].
    destruct (handle_games remote (env_games env) s1) as [[[success message] api] s2].
    split; reflexivity.
  - intros Hnot. rewrite (fetch_and_handle_task_not_started remote env s Hnot). cbn.
    destruct (decide _); split; reflexivity.
Qed.

Lemma fetch_and_handle_task_clears_task_witness :
  let s' := (fetch_and_handle_task sample_remote
               (sample_env
                  (GamesRaised (mkRaised WorkerException "download failed" sample_traceback))
                  sample_pgn)
               (initial_state 0)).1.1 in
  run s' = None /\ task_id s' = None.
Proof.
  refine (proj1 (fetch_and_handle_task_clears_task sample_remote
           (sample_env
              (GamesRaised (mkRaised WorkerException "download failed" sample_traceback))
              sample_pgn)
           (initial_state 0)) _).
  split; [reflexivity | exists sample_run, 3; reflexivity].
Defined.

(** X6: [fetch_and_handle_task] returns [True] exactly when the version
    check passed, a task was assigned and [run_games] returned; a report
    (failed_task or stop_run) is sent exactly when the version check
    passed, a task was assigned and [run_games] raised.  A refused version
    check, an error from /api/request_task and a waiting dispatcher give
    [False] without any report. *)
Theorem fetch_and_handle_task_success (remote : string) (env : task_env)
    (s : current_state) :
  let result := fetch_and_handle_task remote env s in
  (result.1.2 = true <-> task_started env /\ env_games env = GamesReturned) /\
  (reports result.2 <> [] <->
   task_started env /\ exists e, env_games env = GamesRaised e).
Proof.
  cbv zeta.
  destruct (verify_worker_version (env_version env)) as [[|]|] eqn:Hver.
  2-3: rewrite (fetch_and_handle_task_not_started remote env s)
         by (intros [H _]; congruence);
       cbn; split; (split; [try discriminate; try (intros H; now contradiction H)
                           | intros [[H _] _]; congruence]).
  destruct (env_task env) as [| | |r t] eqn:Htask.
  1-3: rewrite (fetch_and_handle_task_not_started remote env s)
         by (intros (_ & r & t & H); congruence);
       cbn; split; (split; [try discriminate; try (intros H; now contradiction H)
                           | intros [(_ & r & t & H) _]; congruence]).
  rewrite (fetch_and_handle_task_assigned remote env s r t Hver Htask). cbv zeta.
  pose proof (run_concurrent_beats remote (env_concurrent env)
                (set_task_id (Some t) (set_run (Some r) s))) as Hbeats.
  apply beats_no_pgn_effects in Hbeats as [_ Hbeats].
  destruct (run_concurrent remote _ _) as [s1 beats]. cbn [fst snd] in *.
  assert (task_started env) as Hstarted by (split; [exact Hver | eauto]).
  assert (forall rep message,
            reports (beats ++ rep ++ upload_pgn remote r t message (env_pgn env))
            = reports rep) as Hrep.
  { intros rep message.
    pose proof (upload_pgn_no_reports remote r t message (env_pgn env)) as Hup.
    unfold reports in *. rewrite !List.filter_app, Hbeats, Hup, app_nil_r. reflexivity. }
  unfold handle_games.
  destruct (env_games env) as [|e]; [|destruct (exc_class e)]; cbn [fst snd];
    rewrite Hrep; cbn.
  - split; split.
    + intros _. now split.
    + reflexivity.
    + intros H. exfalso. now apply H.
    + intros (_ & e & [=]).
  - split; split; try discriminate; eauto. intros [_ [=]].
  - split; split; try discriminate; eauto. intros [_ [=]].
  - split; split; try discriminate; eauto. intros [_ [=]].
  - split; split; try discriminate; eauto. intros [_ [=]].
Qed.

(** ** More on the main loop *)



Section LoopMore.

Variable remote : string.

Lemma loop_body_stop_dead fleet it delay s s1 p why :
  loop_body remote fleet it delay s = (s1, p, inl why) -> alive s1 = false.
Proof.
  unfold loop_body.
  destruct (fetch_and_handle_task remote (it_env it) s) as [[s0 success] effects].
  destruct (it_fish_exit it); [now intros [= <- _ _]|].
  destruct (alive s0) eqn:Hs0; cbn; [|now intros [= <- _ _]].
  destruct success; cbn; [discriminate|].
  destruct fleet; [now intros [= <- _ _] | discriminate].
Qed.

Lemma loop_body_no_task fleet it delay s :
  run s = None -> task_id s = None ->
  run (loop_body remote fleet it delay s).1.1 = None /\
  task_id (loop_body remote fleet it delay s).1.1 = None.
Proof.
  intros Hr Ht. unfold loop_body.
  assert (run (fetch_and_handle_task remote (it_env it) s).1.1 = None /\
          task_id (fetch_and_handle_task remote (it_env it) s).1.1 = None) as Hfetch.
  { unfold fetch_and_handle_task.
    set (s0 := if decide (_ = Some false) then clear_alive s else s).
    assert (run s0 = None /\ task_id s0 = None) as Hs0
      by (subst s0; now destruct (decide _)).
    clearbody s0.
    destruct (verify_worker_version (env_version (it_env it))) as [[|]|]; try exact Hs0.
    destruct (env_task (it_env it)) as [| | |r t]; try exact Hs0.
    destruct (run_concurrent remote _ _) as [s1 beats].
    destruct (handle_games remote _ s1) as [[[success message] api] s2].
    split; reflexivity. }
  destruct (fetch_and_handle_task remote (it_env it) s) as [[s0 success] effects].
  cbn in Hfetch.
  destruct (it_fish_exit it); [exact Hfetch|].
  destruct (negb (alive s0)); [exact Hfetch|].
  destruct (negb success); [|exact Hfetch].
  destruct fleet; [exact Hfetch|].
  destruct (it_sleep_signal it); exact Hfetch.
Qed.

End LoopMore.

(** X8: in fleet mode the main loop never sleeps, and every pass but the
    last one it makes was a success: the first failed pass ends it. *)
Theorem fleet_stops_at_first_failure (remote : string) (its : list iteration)
    (delay : Z) (s : current_state) :
  let passes := (main_loop remote true its delay s).2 in
  Forall (fun p => pass_slept p = None) passes /\
  forall (k : nat) p, passes !! k = Some p -> (S k < length passes)%nat ->
                      pass_success p = true.
Proof.
  cbv zeta. revert delay s. induction its as [|it its IH]; intros delay s; cbn;
    destruct (alive s); cbn; try (split; [constructor | intros k p [=]]).
  destruct (loop_body remote true it delay s) as [[s1 p0] [w|delay']] eqn:Hbody; cbn.
  - destruct (loop_body_stop _ _ _ _ _ _ _ _ Hbody) as [Hslept _].
    split; [repeat constructor; exact Hslept|].
    intros [|k] p Hk Hlen; cbn in Hlen; lia.
  - destruct (loop_body_next _ _ _ _ _ _ _ _ Hbody)
      as [_ [(_ & _ & _ & [=])|(Hok & Hslept & _)]].
    specialize (IH delay' s1).
    destruct (main_loop remote true its delay' s1) as [[why s2] ps]. cbn in *.
    destruct IH as [IH1 IH2]. split; [constructor; assumption|].
    intros [|k] p Hk Hlen; cbn in Hk.
    + now injection Hk as <-.
    + apply (IH2 k p Hk). lia.
Qed.

Example fleet_day :
  main_loop sample_remote true
    (mkIteration (sample_env GamesReturned sample_pgn) false None :: sample_day)
    INITIAL_RETRY_TIME (initial_state 0)
  = (Some StopFleet, clear_alive (initial_state 0),
     [mkPass true [pgn_post sample_remote sample_run 3 "" sample_pgn_bytes;
                   Unlink "testing/R1-3.pgn"] None;
      mkPass false [] None]).
Proof. reflexivity. Qed.

(** X9: when the main loop is left, [alive] is false, so that the
    heartbeat loop ends too; and if no task was recorded when the loop was
    entered, none is recorded when it is left, so that a wake-up of the
    heartbeat thread still under way sends no beat. *)
Theorem main_loop_exit_state (remote : string) (fleet : bool) (its : list iteration)
    (delay : Z) (s : current_state) (why : stop) (s' : current_state)
    (passes : list pass) :
  main_loop remote fleet its delay s = (Some why, s', passes) ->
  alive s' = false /\
  (run s = None -> task_id s = None ->
   run s' = None /\ task_id s' = None /\
   forall now response, (heartbeat_body remote now response s').2 = []).
Proof.
  revert delay s passes. induction its as [|it its IH]; intros delay s passes Hloop;
    cbn in Hloop; destruct (alive s) eqn:Halive.
  - discriminate.
  - injection Hloop as <- <- <-. split; [exact Halive|]. intros Hr Ht.
    split; [exact Hr | split; [exact Ht|]]. intros now response.
    unfold heartbeat_body. destruct (_ <? _); [|reflexivity]. cbn. now rewrite Hr.
  - pose proof (loop_body_no_task remote fleet it delay s) as Hnotask.
    destruct (loop_body remote fleet it delay s) as [[s1 p0] [w|delay']] eqn:Hbody.
    + injection Hloop as <- <- <-.
      split; [exact (loop_body_stop_dead _ _ _ _ _ _ _ _ Hbody)|]. intros Hr Ht.
      destruct (Hnotask Hr Ht) as [Hr1 Ht1]. cbn in Hr1, Ht1.
      split; [exact Hr1 | split; [exact Ht1|]]. intros now response.
      unfold heartbeat_body. destruct (_ <? _); [|reflexivity]. cbn. now rewrite Hr1.
    + destruct (main_loop remote fleet its delay' s1) as [[why2 s2] ps] eqn:Hrec.
      injection Hloop as -> <- <-.
      destruct (IH _ _ _ Hrec) as [Hdead Hrest]. split; [exact Hdead|].
      intros Hr Ht. destruct (Hnotask Hr Ht) as [Hr1 Ht1]. now apply Hrest.
  - injection Hloop as <- <- <-. split; [exact Halive|]. intros Hr Ht.
    split; [exact Hr | split; [exact Ht|]]. intros now response.
    unfold heartbeat_body. destruct (_ <? _); [|reflexivity]. cbn. now rewrite Hr.
Qed.

Lemma main_loop_exit_state_witness :
  let s' := (main_loop sample_remote false sample_day INITIAL_RETRY_TIME
               (initial_state 0)).1.2 in
  alive s' = false /\ run s' = None /\ task_id s' = None.
Proof.
  destruct (main_loop_exit_state sample_remote false sample_day INITIAL_RETRY_TIME
              (initial_state 0) StopFishExit
              (main_loop sample_remote false sample_day INITIAL_RETRY_TIME
                 (initial_state 0)).1.2
              (main_loop sample_remote false sample_day INITIAL_RETRY_TIME
                 (initial_state 0)).2
              eq_refl) as [Hdead Hrest].
  destruct (Hrest eq_refl eq_refl) as (Hr & Ht & _).
  split; [exact Hdead | split; [exact Hr | exact Ht]].
Defined.



(** A start at which the lock object could not be made goes through the
    main loop all the same; the release of the lock raises at the end. *)
Example main_loop_without_lock :
  let st := mkStartup false 0 (Some (mkOptions false false)) (Some (VersionIs 286))
              true true sample_hash (Downloaded sample_sri) false in
  reaches_remote_check st /\
  length (worker sample_remote st sample_day).1.2 = 4%nat /\
  (worker sample_remote st sample_day).1.1 = Crashed.
Proof.
  split; [|split; vm_compute; reflexivity].
  repeat split; try reflexivity.
  - exists (mkOptions false false). split; reflexivity.
  - exists (VersionIs 286). split; [reflexivity | vm_compute; discriminate].
Qed.

(** ** Which frame [get_exception] names *)

Lemma get_exception_loop_outside files name cur message later :
  frame_file cur ∉ files ->
  get_exception_loop files name cur message later = message.
Proof.
  intros Hout. destruct later; cbn; now rewrite bool_decide_eq_false_2.
Qed.

Lemma get_exception_loop_run files name last_in rest :
  frame_file last_in ∈ files ->
  match rest with [] => True | f :: _ => frame_file f ∉ files end ->
  forall pre cur message later,
    Forall (fun f => frame_file f ∈ files) pre ->
    cur :: later = pre ++ last_in :: rest ->
    get_exception_loop files name cur message later = exception_message name last_in.
Proof.
  intros Hlast Hrest. induction pre as [|p pre IH]; intros cur message later Hpre Heq.
  - injection Heq as -> ->.
    destruct rest as [|f rest]; cbn; rewrite bool_decide_eq_true_2 by exact Hlast;
      [reflexivity|].
    now apply get_exception_loop_outside.
  - injection Heq as -> ->. apply Forall_cons in Hpre as [Hp Hpre].
    destruct pre as [|p' pre]; cbn; rewrite bool_decide_eq_true_2 by exact Hp.
    + now apply (IH last_in _ rest).
    + now apply (IH p' _ (pre ++ last_in :: rest)).
Qed.

(** X11: the message of [get_exception] names the first entry of the
    traceback when that entry is not in one of the given files; otherwise
    it names the last entry of the run of entries in those files with
    which the traceback begins, the deepest frame of the worker's own
    code. *)
Theorem get_exception_names_deepest_own_frame (files : list string) (name : string)
    (tb : frame * list frame) :
  (frame_file tb.1 ∉ files ->
   get_exception files name tb = exception_message name tb.1) /\
  (forall pre last_in rest,
      tb.1 :: tb.2 = pre ++ last_in :: rest ->
      Forall (fun f => frame_file f ∈ files) (pre ++ [last_in]) ->
      match rest with [] => True | f :: _ => frame_file f ∉ files end ->
      get_exception files name tb = exception_message name last_in).
Proof.
  unfold get_exception. split.
  - intros Hout. now apply get_exception_loop_outside.
  - intros pre last_in rest Heq Hin Hrest.
    apply Forall_app in Hin as [Hpre Hlast].
    apply Forall_cons in Hlast as [Hlast _].
    now apply (get_exception_loop_run files name last_in rest Hlast Hrest pre).
Qed.

Lemma get_exception_names_deepest_own_frame_witness :
  get_exception ["worker.py"; "games.py"] "KeyError" sample_traceback
  = exception_message "KeyError" (mkFrame "games.py" 1502).
Proof.
  refine (proj2 (get_exception_names_deepest_own_frame ["worker.py"; "games.py"]
                   "KeyError" sample_traceback)
            [mkFrame "worker.py" 1325] (mkFrame "games.py" 1502)
            [mkFrame "subprocess.py" 550] eq_refl _ _).
  - repeat constructor.
  - cbn. intros Hin. repeat (apply elem_of_cons in Hin as [[=]|Hin]). inversion Hin.
Defined.

(** ** Options: memory, concurrency, port *)

Lemma py_round_near (q : Q) :
  (q - (1 # 2) <= inject_Z (py_round q) <= q + (1 # 2))%Q.
Proof.
  unfold py_round.
  pose proof (Qfloor_le q) as Hlo. pose proof (Qlt_floor q) as Hhi.
  rewrite inject_Z_plus in Hhi. change (inject_Z 1) with 1%Q in Hhi.
  destruct (Qcompare_spec (q - inject_Z (Qfloor q)) (1 # 2)) as [Heq|Hlt|Hgt].
  - destruct (Z.even (Qfloor q)).
    + split; lra.
    + rewrite inject_Z_plus. change (inject_Z 1) with 1%Q. split; lra.
  - split; lra.
  - rewrite inject_Z_plus. change (inject_Z 1) with 1%Q. split; lra.
Qed.

Lemma py_round_nonneg (q : Q) : (0 <= q)%Q -> 0 <= py_round q.
Proof.
  intros Hq. destruct (py_round_near q) as [Hlo _].
  destruct (Z_lt_le_dec (py_round q) 0) as [Hneg|]; [exfalso | assumption].
  assert (inject_Z (py_round q) <= inject_Z (-1))%Q as Hle
    by (rewrite <- Zle_Qle; lia).
  change (inject_Z (-1)) with (-1)%Q in Hle. lra.
Qed.

(** X12: [_memory] refuses an expression that does not parse or whose
    value is nan, and accepts every other one, those of infinite value
    included: the amount it returns is never negative, exceeds the memory
    of the machine by at most the half MiB that rounding can add, and is
    the rounded value of the expression itself when that value lies
    between 0 and [MAX]; plus infinity gives [MAX] rounded, minus infinity
    gives 0. *)
Theorem memory_call_clamps (MAX : Q) (x : string) (v : number) :
  (0 <= MAX)%Q ->
  memory_call MAX x None = None /\
  match v with
  | NaN => memory_call MAX x (Some v) = None
  | _ =>
      exists ret,
        memory_call MAX x (Some v) = Some (x, ret) /\
        0 <= ret /\
        (inject_Z ret <= MAX + (1 # 2))%Q /\
        match v with
        | Finite q => (0 <= q <= MAX)%Q -> ret = py_round q
        | Infinite negative => ret = if negative then 0 else py_round MAX
        | NaN => True
        end
  end.
Proof.
  intros HMAX. split; [reflexivity|].
  assert (0 <= py_round MAX /\ (inject_Z (py_round MAX) <= MAX + (1 # 2))%Q) as [Hlo Hhi]
    by (split; [now apply py_round_nonneg | apply py_round_near]).
  assert (number_ltb (Finite MAX) (Finite 0) = false) as HMAX0.
  { cbn. destruct (Qlt_le_dec MAX 0); [lra | reflexivity]. }
  destruct v as [q|[|]|]; [| | |reflexivity].
  - unfold memory_call, py_max, py_min. cbn [mbind option_bind number_ltb].
    destruct (Qlt_le_dec MAX q) as [Hbig|Hsmall].
    + rewrite HMAX0. cbn. eexists. split; [reflexivity|].
      split; [exact Hlo|]. split; [exact Hhi | intros [_ Hq]; lra].
    + cbn [number_ltb]. destruct (Qlt_le_dec q 0) as [Hneg|Hpos]; cbn.
      * eexists. split; [reflexivity|]. change (py_round 0) with 0.
        split; [reflexivity|]. change (inject_Z 0) with 0%Q.
        split; [lra | intros [Hq _]; lra].
      * eexists. split; [reflexivity|].
        split; [now apply py_round_nonneg|]. split; [|reflexivity].
        destruct (py_round_near q) as [_ Hq]. lra.
  - exists 0. unfold memory_call, py_max, py_min. cbn.
    split; [reflexivity|]. split; [reflexivity|]. split; [|reflexivity].
    change (inject_Z 0) with 0%Q. lra.
  - exists (py_round MAX). unfold memory_call, py_max, py_min.
    cbn [mbind option_bind number_ltb negb].
    destruct (Qlt_le_dec MAX 0) as [Hneg|_]; [lra|]. cbn. auto.
Qed.

Lemma memory_call_clamps_witness :
  memory_call (16000 # 1) "MAX/2" None = None /\
  exists ret,
    memory_call (16000 # 1) "MAX/2" (Some (Finite (8000 # 1))) = Some ("MAX/2", ret) /\
    0 <= ret /\ (inject_Z ret <= (16000 # 1) + (1 # 2))%Q /\
    ((0 <= 8000 # 1 <= 16000 # 1)%Q -> ret = py_round (8000 # 1)).
Proof.
  apply (memory_call_clamps (16000 # 1) "MAX/2" (Finite (8000 # 1))). discriminate.
Defined.

Example memory_call_samples :
  memory_call (16000 # 1) "2*MAX" (Some (Finite (32000 # 1))) = Some ("2*MAX", 16000) /\
  memory_call (16000 # 1) "-5" (Some (Finite (-5 # 1))) = Some ("-5", 0) /\
  memory_call (31999 # 2) "MAX" (Some (Finite (31999 # 2))) = Some ("MAX", 16000) /\
  memory_call (16000 # 1) "1e400" (Some (Infinite false)) = Some ("1e400", 16000) /\
  memory_call (16000 # 1) "-1e400" (Some (Infinite true)) = Some ("-1e400", 0) /\
  memory_call (16000 # 1) "1e400-1e400" (Some NaN) = None.
Proof. repeat split; reflexivity. Qed.

(** X13: the check of the memory refuses to start exactly when less than
    420 MiB are given; otherwise the concurrency it leaves is at least 1
    (for a requested concurrency of at least 1) and at most the one
    requested, the memory for that many games fits, 360 MiB for each and 60
    for fastchess, and [concurrency_reduced] is set exactly when the
    concurrency was lowered. *)
Theorem limit_concurrency_fits (max_memory concurrency : Z) :
  1 <= concurrency ->
  match limit_concurrency max_memory concurrency with
  | None => max_memory < STC_memory + fc_memory
  | Some (c, reduced) =>
      STC_memory + fc_memory <= max_memory /\
      1 <= c <= concurrency /\
      STC_memory * c + fc_memory <= max_memory /\
      (reduced = true <-> c < concurrency)
  end.
Proof.
  intros Hc. unfold limit_concurrency.
  change STC_memory with 360. change fc_memory with 60.
  remember (max_memory - 60) as a eqn:Ha.
  assert (max_memory = a + 60) as Hm by lia. clear Ha. subst max_memory.
  assert (a < 0 -> a ÷ 360 <= 0) as Hneg.
  { intros Ha. pose proof (Z.quot_opp_l (- a) 360 ltac:(lia)) as Hopp.
    rewrite Z.opp_involutive in Hopp.
    pose proof (Z.quot_pos (- a) 360 ltac:(lia) ltac:(lia)). lia. }
  assert (0 <= a -> 360 * (a ÷ 360) <= a < 360 * (a ÷ 360) + 360) as Hpos.
  { intros Ha. pose proof (Z.quot_rem' a 360).
    pose proof (Z.rem_bound_pos a 360 Ha ltac:(lia)). lia. }
  destruct (Z.ltb_spec (a ÷ 360) 1) as [Hlow|Hok]; [lia|].
  destruct (Z.ltb_spec (a ÷ 360) concurrency) as [Hred|Hnot].
  - repeat split; lia.
  - repeat split; first [lia | discriminate].
Qed.

Lemma limit_concurrency_fits_witness :
  limit_concurrency 2000 8 = Some (5, true) /\
  STC_memory * 5 + fc_memory <= 2000.
Proof.
  pose proof (limit_concurrency_fits 2000 8 ltac:(lia)) as H.
  change (limit_concurrency 2000 8) with (Some (5, true)) in H.
  split; [reflexivity | exact (proj1 (proj2 (proj2 H)))].
Defined.

(** X14: together, the option parser and the check of the memory leave a
    concurrency between 1 and the number of CPUs, below that number unless
    the expression names MAX, for which the memory given suffices. *)
Theorem resolved_concurrency_bounds (MAX : Z) (x : string) (parsed : option Q)
    (requested : Z) (max_memory c : Z) (reduced : bool) :
  concurrency_call MAX x parsed = Some (x, requested) ->
  limit_concurrency max_memory requested = Some (c, reduced) ->
  1 <= c <= MAX /\
  (contains "MAX" x = false -> c < MAX) /\
  STC_memory * c + fc_memory <= max_memory.
Proof.
  intros Hcall Hlimit.
  assert (1 <= requested <= MAX /\ (contains "MAX" x = false -> requested < MAX))
    as [Hreq Hfree].
  { unfold concurrency_call in Hcall. destruct parsed as [v|]; [|discriminate].
    cbv zeta in Hcall.
    destruct (Z.leb_spec (py_round v) 0); [discriminate|].
    destruct (contains "MAX" x); cbn in Hcall;
      destruct (Z.geb_spec (py_round v) MAX), (Z.gtb_spec (py_round v) MAX);
      cbn in Hcall; try discriminate; injection Hcall as <-;
      (split; [lia | intros; try discriminate; lia]). }
  pose proof (limit_concurrency_fits max_memory requested ltac:(lia)) as Hfits.
  rewrite Hlimit in Hfits. destruct Hfits as (_ & Hc & Hmem & _).
  split; [lia | split; [intros H; specialize (Hfree H); lia | exact Hmem]].
Qed.

Lemma resolved_concurrency_bounds_witness :
  1 <= 5 <= 8 /\ (contains "MAX" "MAX" = false -> 5 < 8) /\
  STC_memory * 5 + fc_memory <= 2000.
Proof.
  exact (resolved_concurrency_bounds 8 "MAX" (Some (inject_Z 8)) 8 2000 5 true
           eq_refl eq_refl).
Defined.

Lemma fix_port_cases (protocol : string) (port : Z) :
  (protocol = "http" /\ port = 443 /\ fix_port protocol port = 80) \/
  (protocol = "https" /\ port = 80 /\ fix_port protocol port = 443) \/
  (fix_port protocol port = port /\
   ~ (protocol = "http" /\ port = 443) /\ ~ (protocol = "https" /\ port = 80)).
Proof.
  unfold fix_port.
  destruct (String.eqb_spec protocol "http") as [->|Hhttp]; cbn.
  - destruct (Z.eqb_spec port 443) as [->|Hp]; cbn; [now left|].
    right. right. repeat split; [intros [_ ?]; contradiction | intros [[=] _]].
  - destruct (String.eqb_spec protocol "https") as [->|Hhttps]; cbn.
    + destruct (Z.eqb_spec port 80) as [->|Hp]; cbn; [right; now left|].
      right. right. repeat split; [intros [[=] _] | intros [_ ?]; contradiction].
    + right. right. repeat split; intros [? _]; contradiction.
Qed.

(** X15: the rewrite of the port changes only port 443 under http, to 80,
    and port 80 under https, to 443; it is never left with one of these two
    pairs, and running it again changes nothing. *)
Theorem fix_port_settles (protocol : string) (port : Z) :
  let port' := fix_port protocol port in
  ~ (protocol = "http" /\ port' = 443) /\
  ~ (protocol = "https" /\ port' = 80) /\
  (port' <> port ->
   (protocol = "http" /\ port = 443 /\ port' = 80) \/
   (protocol = "https" /\ port = 80 /\ port' = 443)) /\
  fix_port protocol port' = port'.
Proof.
  cbv zeta.
  destruct (fix_port_cases protocol port)
    as [(-> & -> & ->)|[(-> & -> & ->)|(-> & Hhttp & Hhttps)]].
  - split; [intros [_ [=]]|]. split; [intros [[=] _]|].
    split; [intros _; now left | reflexivity].
  - split; [intros [[=] _]|]. split; [intros [_ [=]]|].
    split; [intros _; right; now split | reflexivity].
  - split; [exact Hhttp|]. split; [exact Hhttps|]. split.
    + intros H. now contradiction H.
    + destruct (fix_port_cases protocol port)
        as [(-> & -> & _)|[(-> & -> & _)|(-> & _)]]; try reflexivity.
      * exfalso. now apply Hhttp.
      * exfalso. now apply Hhttps.
Qed.

(** ** Credentials *)

Lemma verify_credentials_true username password response sent :
  verify_credentials username password response = (Some true, sent) ->
  username <> "" /\ password <> "" /\ response = CredentialsReply false /\
  sent = [mkRequest username password (CredentialsReply false)].
Proof.
  unfold verify_credentials.
  destruct (String.eqb_spec username "") as [->|Hu]; cbn; [discriminate|].
  destruct (String.eqb_spec password "") as [->|Hp]; cbn; [discriminate|].
  destruct response as [|[|]]; intros [= <-]. auto.
Qed.

Lemma verify_credentials_sent username password response :
  (length (verify_credentials username password response).2 <= 1)%nat.
Proof.
  unfold verify_credentials.
  destruct (_ && _); [|cbn; lia]. destruct response as [|[|]]; cbn; lia.
Qed.

(** X16: unless validation is switched off, [get_credentials] returns a
    user name that is not empty only together with a password that is not
    empty either, and only when the last request it made to the dispatcher
    carried exactly this user name and this password and was answered
    without error; it makes at most two requests, and none when validation
    is switched off. *)
Theorem get_credentials_validated (env : credentials_env) :
  let result := get_credentials env in
  (length result.2 <= 2)%nat /\
  (no_validation env = true -> result.2 = []) /\
  (no_validation env = false -> result.1.1 <> "" ->
   result.1.2 <> "" /\
   last result.2 = Some (mkRequest result.1.1 result.1.2 (CredentialsReply false))).
Proof.
  cbv zeta. unfold get_credentials.
  set (login := match cli_args env with
                | [u; p] => (u, p)
                | _ => (config_username env, config_password env)
                end).
  destruct login as [username password].
  destruct (no_validation env).
  { cbn. split; [lia | split; [reflexivity | discriminate]]. }
  pose proof (verify_credentials_sent username password (first_response env)) as Hlen1.
  destruct (verify_credentials username password (first_response env))
    as [[[|]|] sent] eqn:Hfirst; cbn [fst snd] in *.
  - apply verify_credentials_true in Hfirst as (Hu & Hp & Hr & ->).
    split; [cbn; lia | split; [discriminate|]]. intros _ _. auto.
  - destruct (typed_username env) as [typed_u|];
      [|cbn; split; [lia | split; [discriminate | intros _ H; now contradiction H]]].
    destruct (if negb (String.eqb typed_u "") then typed_password env else Some password)
      as [typed_p|];
      [|cbn; split; [lia | split; [discriminate | intros _ H; now contradiction H]]].
    pose proof (verify_credentials_sent typed_u typed_p (second_response env)) as Hlen2.
    destruct (verify_credentials typed_u typed_p (second_response env))
      as [[[|]|] sent2] eqn:Hsecond; cbn [fst snd] in *.
    + apply verify_credentials_true in Hsecond as (Hu & Hp & Hr & ->).
      split; [rewrite length_app; cbn; lia | split; [discriminate|]].
      intros _ _. split; [exact Hp | apply last_snoc].
    + split; [rewrite length_app; lia | split; [discriminate|]].
      intros _ H. now contradiction H.
    + split; [rewrite length_app; lia | split; [discriminate|]].
      intros _ H. now contradiction H.
  - cbn. split; [lia | split; [discriminate | intros _ H; now contradiction H]].
Qed.

Example get_credentials_retyped :
  get_credentials
    (mkCredentialsEnv "joe" "old" [] false (CredentialsReply true)
       (Some "joe") (Some "new") (CredentialsReply false))
  = (("joe", "new"),
     [mkRequest "joe" "old" (CredentialsReply true);
      mkRequest "joe" "new" (CredentialsReply false)]).
Proof. reflexivity. Qed.

(** With no login stored, the first call asks nothing of the dispatcher;
    the login typed at the prompt is then refused, and nothing is
    returned. *)
Example get_credentials_refused :
  get_credentials
    (mkCredentialsEnv "" "" [] false (CredentialsReply false)
       (Some "joe") (Some "wrong") (CredentialsReply true))
  = (("", ""), [mkRequest "joe" "wrong" (CredentialsReply true)]).
Proof. reflexivity. Qed.

(** ** fastchess *)

Lemma prefix_length (s1 s2 : string) :
  String.prefix s1 s2 = true -> (String.length s1 <= String.length s2)%nat.
Proof.
  revert s2. induction s1 as [|c1 s1 IH]; intros [|c2 s2]; cbn.
  - lia.
  - lia.
  - discriminate.
  - destruct (Ascii.ascii_dec c1 c2); [|discriminate].
    intros H. specialize (IH _ H). lia.
Qed.

Lemma verify_fastchess_true probe sha :
  verify_fastchess probe sha = true ->
  probe_raised probe = false /\ probe_returncode probe = 0 /\
  (7 <= String.length (probe_short_sha probe) <= String.length sha)%nat /\
  String.prefix (probe_short_sha probe) sha = true.
Proof.
  unfold verify_fastchess.
  destruct (probe_raised probe); [discriminate|].
  destruct (Z.eqb_spec (probe_returncode probe) 0); cbn [negb]; [|discriminate].
  destruct (Nat.ltb_spec (String.length (probe_short_sha probe)) 7); [discriminate|].
  destruct (String.prefix (probe_short_sha probe) sha) eqn:Hpre; cbn [negb];
    [|discriminate].
  intros _. pose proof (prefix_length _ _ Hpre). repeat split; auto; lia.
Qed.

(** X17: [setup_fastchess] returns [True] only when the binary in place,
    the one found or the one just built, ran with return code 0 and showed
    between 7 and 40 leading characters of the commit [FASTCHESS_SHA]; and
    it builds from the sources exactly when no binary was found that passes
    this test and, if one was found, it could be deleted. *)
Theorem setup_fastchess_verified (env : fastchess_env) :
  let result := setup_fastchess env in
  (result.1 = true ->
   exists probe,
     (probe = probe_before env /\ exists_before env = true /\ result.2 = false \/
      probe = probe_after env /\ exists_after env = true /\ result.2 = true) /\
     probe_raised probe = false /\ probe_returncode probe = 0 /\
     (7 <= String.length (probe_short_sha probe) <= 40)%nat /\
     String.prefix (probe_short_sha probe) FASTCHESS_SHA = true) /\
  (result.2 = true <->
   (exists_before env = false \/
    verify_fastchess (probe_before env) FASTCHESS_SHA = false /\
    unlink_raises env = false)).
Proof.
  cbv zeta. unfold setup_fastchess.
  destruct (exists_before env) eqn:Hbefore; cbn [andb].
  - destruct (verify_fastchess (probe_before env) FASTCHESS_SHA) eqn:Hv; cbn [fst snd].
    + split.
      * intros _. exists (probe_before env).
        split; [left; auto|]. now apply verify_fastchess_true in Hv.
      * split; [discriminate | intros [[=]|[[=] _]]].
    + destruct (unlink_raises env); cbn [fst snd].
      { split; [discriminate | split; [discriminate | intros [[=]|[_ [=]]]]]. }
      destruct (build_raises env); cbn [fst snd];
        [split; [discriminate | split; auto]|].
      destruct (exists_after env) eqn:Hafter; cbn [fst snd];
        [|split; [discriminate | split; auto]].
      split; [|split; auto].
      intros Hv'. exists (probe_after env).
      split; [right; auto|]. now apply verify_fastchess_true in Hv'.
  - destruct (build_raises env); cbn [fst snd];
      [split; [discriminate | split; auto]|].
    destruct (exists_after env) eqn:Hafter; cbn [fst snd];
      [|split; [discriminate | split; auto]].
    split; [|split; auto].
    intros Hv'. exists (probe_after env).
    split; [right; auto|]. now apply verify_fastchess_true in Hv'.
Qed.

Example verify_fastchess_samples :
  verify_fastchess (mkProbe false 0 "5e4b66b5") FASTCHESS_SHA = true /\
  verify_fastchess (mkProbe false 0 "5e4b66") FASTCHESS_SHA = false /\
  verify_fastchess (mkProbe false 0 "5e4b66b6") FASTCHESS_SHA = false /\
  verify_fastchess (mkProbe false 1 "5e4b66b5") FASTCHESS_SHA = false /\
  verify_fastchess (mkProbe false 0 "") FASTCHESS_SHA = false.
Proof. repeat split; reflexivity. Qed.

(** ** The prefix of the key *)

Lemma is_ascii_alnum_range (c : N) :
  is_ascii_alnum c = true ->
  (48 <= c <= 57 \/ 65 <= c <= 90 \/ 97 <= c <= 122)%N.
Proof.
  unfold is_ascii_alnum.
  destruct (N.leb_spec 48 c), (N.leb_spec c 57), (N.leb_spec 65 c),
    (N.leb_spec c 90), (N.leb_spec 97 c), (N.leb_spec c 122);
    cbn; try discriminate; intros _; lia.
Qed.

Lemma is_ascii_alnum_not_space (c : N) :
  is_ascii_alnum c = true -> is_space c = false.
Proof.
  intros Hc. apply is_ascii_alnum_range in Hc. unfold is_space.
  assert ((c <=? 13) = false)%N as -> by (apply N.leb_gt; lia).
  assert ((c <=? 32) = false)%N as -> by (apply N.leb_gt; lia).
  assert ((0x2000 <=? c) = false)%N as -> by (apply N.leb_gt; lia).
  assert ((c =? 0x85) = false)%N as -> by (apply N.eqb_neq; lia).
  assert ((c =? 0xA0) = false)%N as -> by (apply N.eqb_neq; lia).
  assert ((c =? 0x1680) = false)%N as -> by (apply N.eqb_neq; lia).
  assert ((c =? 0x2028) = false)%N as -> by (apply N.eqb_neq; lia).
  assert ((c =? 0x2029) = false)%N as -> by (apply N.eqb_neq; lia).
  assert ((c =? 0x202F) = false)%N as -> by (apply N.eqb_neq; lia).
  assert ((c =? 0x205F) = false)%N as -> by (apply N.eqb_neq; lia).
  assert ((c =? 0x3000) = false)%N as -> by (apply N.eqb_neq; lia).
  now rewrite !andb_false_r.
Qed.

Lemma lstrip_no_space (x : list N) :
  Forall (fun c => is_space c = false) x -> lstrip x = x.
Proof. intros [|c x' Hc _]; cbn; [reflexivity | now rewrite Hc]. Qed.

Lemma strip_no_space (x : list N) :
  Forall (fun c => is_space c = false) x -> strip x = x.
Proof.
  intros Hx. unfold strip. rewrite (lstrip_no_space x Hx).
  rewrite lstrip_no_space; [apply rev_involutive|].
  apply Forall_forall. intros c Hc. rewrite Forall_forall in Hx. apply Hx.
  apply list_elem_of_In. apply list_elem_of_In, in_rev in Hc. exact Hc.
Qed.

Lemma alpha_numeric_alnum (y : list N) :
  (2 <= length y <= 8)%nat ->
  Forall (fun c => is_ascii_alnum c = true) y ->
  alpha_numeric y = Some y.
Proof.
  intros Hlen Hy. unfold alpha_numeric.
  rewrite strip_no_space
    by (eapply Forall_impl; [exact Hy | apply is_ascii_alnum_not_space]).
  destruct (decide (y = code_points "_hw")) as [->|_]; [reflexivity|].
  destruct (Nat.leb_spec (length y) 1); [lia|].
  assert (forallb (fun c => c <? 128)%N y = true) as ->.
  { apply forallb_forall. intros c Hc. rewrite Forall_forall in Hy.
    apply list_elem_of_In, Hy, is_ascii_alnum_range in Hc. apply N.ltb_lt. lia. }
  assert (forallb is_ascii_alnum y = true) as ->.
  { apply forallb_forall. intros c Hc. rewrite Forall_forall in Hy.
    now apply Hy, list_elem_of_In. }
  cbn. now rewrite take_ge by lia.
Qed.

Lemma alpha_numeric_Some (x y : list N) :
  alpha_numeric x = Some y ->
  y = code_points "_hw" \/
  (y <> code_points "_hw" /\ (2 <= length y <= 8)%nat /\
   Forall (fun c => is_ascii_alnum c = true) y).
Proof.
  unfold alpha_numeric.
  destruct (decide (strip x = code_points "_hw")) as [->|_]; [intros [= <-]; now left|].
  destruct (Nat.leb_spec (length (strip x)) 1) as [|Hlen]; [discriminate|].
  destruct (forallb (fun c => c <? 128)%N (strip x)); cbn; [|discriminate].
  destruct (forallb is_ascii_alnum (strip x)) eqn:Halnum; cbn; [|discriminate].
  intros [= <-]. right.
  assert (Forall (fun c => is_ascii_alnum c = true) (take 8 (strip x))) as Hall.
  { apply Forall_take, Forall_forall. intros c Hc.
    rewrite forallb_forall in Halnum. now apply Halnum, list_elem_of_In. }
  split; [|split; [rewrite length_take; lia | exact Hall]].
  intros Heq. rewrite Heq in Hall. apply Forall_cons in Hall as [Hc _].
  discriminate Hc.
Qed.

(** X18: what [_alpha_numeric] accepts it returns as the text _hw or as two
    to eight ASCII letters and digits, the first eight of the text without
    the white space around it; and it returns its own results
    unchanged. *)
Theorem alpha_numeric_shape (x y : list N) :
  alpha_numeric x = Some y ->
  (y = code_points "_hw" \/
   ((2 <= length y <= 8)%nat /\ Forall (fun c => is_ascii_alnum c = true) y /\
    y = take 8 (strip x))) /\
  alpha_numeric y = Some y.
Proof.
  intros Hx. destruct (alpha_numeric_Some x y Hx) as [->|(Hne & Hlen & Hall)].
  - split; [now left | reflexivity].
  - split; [|now apply alpha_numeric_alnum].
    right. split; [exact Hlen | split; [exact Hall|]].
    unfold alpha_numeric in Hx.
    destruct (decide (strip x = code_points "_hw")) as [Heq|_];
      [injection Hx as <-; contradiction|].
    destruct (length (strip x) <=? 1)%nat; [discriminate|].
    destruct (_ || _); [discriminate|]. now injection Hx as <-.
Qed.

Lemma alpha_numeric_shape_witness :
  alpha_numeric (code_points "Worker12") = Some (code_points "Worker12").
Proof.
  exact (proj2 (alpha_numeric_shape (code_points "  Worker123 ") (code_points "Worker12")
                  eq_refl)).
Defined.

Example alpha_numeric_samples :
  alpha_numeric (code_points " _hw ") = Some (code_points "_hw") /\
  alpha_numeric (code_points "a") = None /\
  alpha_numeric (code_points "a_b") = None /\
  alpha_numeric ([0xA0; 97; 98; 0x3000])%N = Some (code_points "ab") /\
  alpha_numeric ([97; 0xE9])%N = None.
Proof. repeat split; reflexivity. Qed.

(** X19: with a prefix that [_alpha_numeric] accepted, a machine id of at
    least eight characters and the 36 characters of a uuid4, the key of
    [get_uuid] is the whole prefix (the first eight characters of the
    machine id for the prefix _hw) followed by the last 28 characters of
    the uuid4; it has 36 characters only for a prefix of eight, and never
    fewer than 30. *)
Theorem get_uuid_shape (x prefix hw_id uuid4 : list N) :
  alpha_numeric x = Some prefix ->
  (8 <= length hw_id)%nat ->
  length uuid4 = 36%nat ->
  let key := get_uuid prefix hw_id uuid4 in
  let shown := if decide (prefix = code_points "_hw") then take 8 hw_id else prefix in
  key = shown ++ drop 8 uuid4 /\
  length key = (length shown + 28)%nat /\
  (30 <= length key <= 36)%nat.
Proof.
  intros Hx Hhw Huuid. cbv zeta. unfold get_uuid.
  assert (length (drop 8 uuid4) = 28%nat) as Hdrop by (rewrite length_drop; lia).
  destruct (decide (prefix = code_points "_hw")) as [->|Hne].
  - rewrite length_app, length_take, Hdrop. repeat split; lia.
  - destruct (alpha_numeric_Some x prefix Hx) as [->|(_ & Hlen & _)]; [contradiction|].
    rewrite take_ge by lia. rewrite length_app, Hdrop. repeat split; lia.
Qed.

Lemma get_uuid_shape_witness :
  get_uuid (code_points "ab") (code_points "0123abcd")
    (code_points "8c5e1f6a-3b7d-4e2a-9f1c-5d6e7f8091a2")
  = code_points "ab-3b7d-4e2a-9f1c-5d6e7f8091a2".
Proof.
  exact (proj1 (get_uuid_shape (code_points " ab ") (code_points "ab")
                  (code_points "0123abcd")
                  (code_points "8c5e1f6a-3b7d-4e2a-9f1c-5d6e7f8091a2")
                  eq_refl ltac:(cbn; lia) eq_refl)).
Defined.

(** ** Compilers *)

Lemma pair_ltb_false (a b c d : Z) :
  pair_ltb (a, b) (c, d) = false <-> c < a \/ (a = c /\ d <= b).
Proof.
  unfold pair_ltb. cbn.
  destruct (Z.ltb_spec a c), (Z.eqb_spec a c), (Z.ltb_spec b d); cbn;
    split; try discriminate; try reflexivity; lia.
Qed.

Lemma gcc_version_Some probe v :
  gcc_version probe = Some v ->
  exists major minor patchlevel,
    v = ("g++", major, minor, patchlevel) /\
    cc_clang_macro probe = false /\ cc_returncode probe = 0 /\
    (9 < major \/ (major = 9 /\ 3 <= minor)).
Proof.
  unfold gcc_version.
  destruct (cc_raised probe); [discriminate|].
  destruct (cc_clang_macro probe); [discriminate|].
  destruct (Z.eqb_spec (cc_returncode probe) 0); cbn [negb]; [|discriminate].
  destruct (cc_major probe) as [major|]; [|discriminate].
  destruct (cc_minor probe) as [minor|]; [|discriminate].
  destruct (cc_patchlevel probe) as [patchlevel|]; [|discriminate].
  destruct (pair_ltb _ _) eqn:Hlt; [discriminate|].
  intros [= <-]. apply pair_ltb_false in Hlt. eauto 8.
Qed.

Lemma clang_version_Some probe profdata_raises v :
  clang_version probe profdata_raises = Some v ->
  exists major minor patchlevel,
    v = ("clang++", major, minor, patchlevel) /\
    cc_returncode probe = 0 /\ profdata_raises = false /\ 10 <= major.
Proof.
  unfold clang_version.
  destruct (cc_raised probe); [discriminate|].
  destruct (Z.eqb_spec (cc_returncode probe) 0); cbn [negb]; [|discriminate].
  destruct (cc_major probe) as [major|]; [|discriminate].
  destruct (cc_minor probe) as [minor|]; [|discriminate].
  destruct (cc_patchlevel probe) as [patchlevel|]; [|discriminate].
  destruct (pair_ltb _ _) eqn:Hlt; [discriminate|].
  destruct profdata_raises; [discriminate|].
  intros [= <-]. apply pair_ltb_false in Hlt.
  unfold MIN_CLANG_MAJOR, MIN_CLANG_MINOR in Hlt.
  exists major, minor, patchlevel. repeat split; auto. lia.
Qed.

(** X20: every compiler that [detect_compilers] lists ran with return code
    0 and is recent enough, g++ from 9.3 and clang++ from 10.0 on, g++ not
    being clang++ in disguise and clang++ having its llvm-profdata; the
    default compiler is one of those listed, g++ whenever g++ is listed;
    and [setup_parameters] gives up exactly when none is. *)
Theorem detect_compilers_usable (gcc clang : compiler_probe) (profdata_raises : bool) :
  let compilers := detect_compilers gcc clang profdata_raises in
  (forall name v, (name, v) ∈ compilers ->
     exists major minor patchlevel,
       v = (name, major, minor, patchlevel) /\
       (name = "g++" /\ cc_clang_macro gcc = false /\ cc_returncode gcc = 0 /\
        (9 < major \/ (major = 9 /\ 3 <= minor)) \/
        name = "clang++" /\ cc_returncode clang = 0 /\ profdata_raises = false /\
        10 <= major)) /\
  (default_compiler compilers = None <-> compilers = []) /\
  (forall name, default_compiler compilers = Some name ->
     name ∈ compilers.*1 /\ ("g++" ∈ compilers.*1 -> name = "g++")).
Proof.
  cbv zeta. unfold detect_compilers.
  destruct (gcc_version gcc) as [vg|] eqn:Hg;
    destruct (clang_version clang profdata_raises) as [vc|] eqn:Hc; cbn [app].
  all: try (apply gcc_version_Some in Hg
              as (gM & gm & gp & -> & Hgmacro & Hgrc & Hgmin)).
  all: try (apply clang_version_Some in Hc as (cM & cm & cp & -> & Hcrc & Hcpd & Hcmin)).
  all: split;
    [intros name v Hin;
     repeat (apply elem_of_cons in Hin as [[= -> ->]|Hin];
             [eexists _, _, _; split; [reflexivity|]; auto 10|]);
     inversion Hin|].
  all: split; [split; [try discriminate; try reflexivity | try discriminate; try reflexivity]|].
  all: intros name; cbn; try discriminate; intros [= <-].
  all: split; [repeat constructor | try reflexivity].
  intros Hin. repeat (apply elem_of_cons in Hin as [[=]|Hin]). inversion Hin.
Qed.

Example detect_compilers_samples :
  detect_compilers (mkCompilerProbe false false 0 (Some 9) (Some 2) (Some 1))
    (mkCompilerProbe false false 0 (Some 14) (Some 0) (Some 6)) false
  = [("clang++", ("clang++", 14, 0, 6))] /\
  default_compiler
    (detect_compilers (mkCompilerProbe false false 0 (Some 12) (Some 2) (Some 0))
       (mkCompilerProbe false false 0 (Some 14) (Some 0) (Some 6)) false)
  = Some "g++" /\
  gcc_version (mkCompilerProbe false true 0 (Some 4) (Some 2) (Some 1)) = None.
Proof. repeat split; reflexivity. Qed.

(** ** The configuration file *)

Lemma is_default_section_false s :
  is_default_section s = false -> s <> "" /\ s <> "DEFAULT".
Proof.
  unfold is_default_section.
  destruct (String.eqb_spec s ""), (String.eqb_spec s "DEFAULT"); cbn;
    try discriminate; auto.
Qed.

Lemma set_option_state c0 s o d0 c value x :
  is_default_section s = false ->
  option_state c0 s o d0 c value ->
  exists c', set_option c s o x = Some c' /\ option_state c0 s o d0 c' x /\
             stored c' s o = Some x.
Proof.
  intros Hs (Hdef & d & Hsec & Hother & _). unfold set_option. rewrite Hs, Hsec.
  rewrite lookup_insert_eq. eexists. split; [reflexivity|]. split.
  - split; [exact Hdef|]. exists (<[o := x]> d). cbn. split; [|split].
    + now rewrite insert_insert_eq.
    + intros o' Ho'. rewrite lookup_insert_ne by congruence. now apply Hother.
    + unfold get_option. cbn. rewrite !lookup_insert_eq. reflexivity.
  - unfold stored. cbn. rewrite !lookup_insert_eq. reflexivity.
Qed.

Lemma validate_type_spec c0 v d0 c1 o1 :
  is_default_section (se_section v) = false ->
  option_state c0 (se_section v) (se_option v) d0 c1 o1 ->
  exists c' value,
    match se_type v with
    | TypeCallable accepts =>
        if accepts o1 then Some c1
        else set_option c1 (se_section v) (se_option v) (se_default v)
    | TypeChoices choices =>
        if bool_decide (o1 ∈ choices) then Some c1
        else set_option c1 (se_section v) (se_option v) (se_default v)
    end = Some c' /\
    option_state c0 (se_section v) (se_option v) d0 c' value /\
    settled_value c' v value.
Proof.
  intros Hs Hst.
  destruct (set_option_state c0 _ _ d0 c1 o1 (se_default v) Hs Hst)
    as (c2 & Hset & Hst2 & Hstored).
  unfold settled_value, accepted. destruct (se_type v) as [accepts|choices].
  - destruct (accepts o1) eqn:Hacc; [exists c1, o1 | exists c2, (se_default v)]; auto.
  - destruct (bool_decide (o1 ∈ choices)) eqn:Hacc;
      [exists c1, o1 | exists c2, (se_default v)]; auto.
Qed.

Lemma validate_option_spec c v d0 :
  is_default_section (se_section v) = false ->
  cfg_sections c !! se_section v = Some d0 ->
  exists c' value,
    validate_option c v = Some c' /\
    option_state c (se_section v) (se_option v) d0 c' value /\
    settled_value c' v value.
Proof.
  intros Hs Hd0. unfold validate_option.
  assert (forall value, get_option c (se_section v) (se_option v) = Some value ->
            option_state c (se_section v) (se_option v) d0 c value) as Hstart.
  { intros value Hget. split; [reflexivity|]. exists d0.
    split; [now rewrite insert_id | split; [reflexivity | exact Hget]]. }
  destruct (has_option c (se_section v) (se_option v)) eqn:Hhas; cbn [negb].
  - assert (exists o, get_option c (se_section v) (se_option v) = Some o) as [o Hget].
    { unfold has_option, get_option in *. rewrite Hs, Hd0 in *.
      destruct (d0 !! se_option v); [eauto|].
      destruct (cfg_defaults c !! se_option v); [eauto|]. discriminate. }
    rewrite Hget. cbn.
    destruct (se_preprocessor v) as [f|]; cbn.
    + destruct (decide (f o <> o)); cbn.
      * destruct (set_option_state c _ _ d0 c o (f o) Hs (Hstart _ Hget))
          as (c1 & -> & Hst & _).
        cbn. now apply validate_type_spec.
      * now apply validate_type_spec, Hstart.
    + now apply validate_type_spec, Hstart.
  - unfold set_option. rewrite Hs, Hd0. eexists _, _. split; [reflexivity|].
    split.
    + split; [reflexivity|]. eexists. cbn. split; [reflexivity|]. split.
      * intros o' Ho'. now rewrite lookup_insert_ne by congruence.
      * unfold get_option. cbn. now rewrite !lookup_insert_eq.
    + left. split; [reflexivity|]. unfold stored. cbn.
      now rewrite !lookup_insert_eq.
Qed.

Lemma validate_entry_spec c v :
  is_default_section (se_section v) = false ->
  exists c' value,
    validate_entry c v = Some c' /\
    option_state c (se_section v) (se_option v)
      (default ∅ (cfg_sections c !! se_section v)) c' value /\
    settled_value c' v value.
Proof.
  intros Hs. unfold validate_entry, add_section, has_section.
  destruct (cfg_sections c !! se_section v) as [d0|] eqn:Hd0.
  - rewrite bool_decide_eq_true_2 by eauto. cbn.
    now apply validate_option_spec.
  - rewrite bool_decide_eq_false_2 by (intros [? [=]]).
    destruct (is_default_section_false _ Hs) as [_ Hne].
    destruct (String.eqb_spec (se_section v) "DEFAULT"); [contradiction|].
    cbn. set (c1 := mkConfig _ _).
    destruct (validate_option_spec c1 v ∅ Hs) as (c' & value & Hv & Hst & Hgood).
    { subst c1. cbn. apply lookup_insert_eq. }
    exists c', value. split; [exact Hv | split; [|exact Hgood]].
    destruct Hst as (Hdef & d & Hsec & Hother & Hget).
    split; [exact Hdef|]. exists d. split; [|split; [exact Hother | exact Hget]].
    rewrite Hsec. subst c1. cbn. now rewrite insert_insert_eq.
Qed.


Lemma option_state_step c s o d0 c1 value :
  is_default_section s = false ->
  d0 = default ∅ (cfg_sections c !! s) ->
  option_state c s o d0 c1 value ->
  plain_sections c ->
  plain_sections c1 /\
  is_Some (cfg_sections c1 !! s) /\
  (forall s2, is_Some (cfg_sections c !! s2) -> is_Some (cfg_sections c1 !! s2)) /\
  (forall s2 o2, (s2, o2) <> (s, o) -> is_Some (cfg_sections c !! s2) ->
                 get_option c1 s2 o2 = get_option c s2 o2 /\
                 stored c1 s2 o2 = stored c s2 o2).
Proof.
  intros Hs -> (Hdef & d & Hsec & Hother & Hget) Hplain.
  split; [|split; [|split]].
  - intros s2. rewrite Hsec. destruct (decide (s2 = s)) as [->|Hne]; [auto|].
    rewrite lookup_insert_ne by congruence. apply Hplain.
  - rewrite Hsec, lookup_insert_eq. eauto.
  - intros s2 Hs2. rewrite Hsec. destruct (decide (s2 = s)) as [->|Hne].
    + rewrite lookup_insert_eq. eauto.
    + now rewrite lookup_insert_ne by congruence.
  - intros s2 o2 Hne [d2 Hs2]. unfold get_option, stored. rewrite Hdef, Hsec.
    destruct (decide (s2 = s)) as [->|Hne2].
    + rewrite lookup_insert_eq, Hs2. rewrite Hs2 in Hother. cbn in Hother.
      rewrite Hother by congruence. split; reflexivity.
    + rewrite lookup_insert_ne by congruence. split; reflexivity.
Qed.

Lemma validate_loop_spec schema :
  forall c,
    Forall (fun v => is_default_section (se_section v) = false) schema ->
    NoDup (schema_key <$> schema) ->
    plain_sections c ->
    exists c',
      validate_loop schema c = Some c' /\
      cfg_defaults c' = cfg_defaults c /\
      plain_sections c' /\
      (forall s, is_Some (cfg_sections c !! s) -> is_Some (cfg_sections c' !! s)) /\
      (forall s o, (s, o) ∉ schema_key <$> schema -> is_Some (cfg_sections c !! s) ->
                   get_option c' s o = get_option c s o /\
                   stored c' s o = stored c s o) /\
      (forall v, v ∈ schema ->
         is_Some (cfg_sections c' !! se_section v) /\
         exists value,
           get_option c' (se_section v) (se_option v) = Some value /\
           settled_value c' v value).
Proof.
  induction schema as [|v schema IH]; intros c Hplain_schema Hnodup Hplain; cbn.
  - exists c. split; [reflexivity|]. split; [reflexivity|]. split; [exact Hplain|].
    split; [auto|]. split; [auto|]. intros v Hv. inversion Hv.
  - apply Forall_cons in Hplain_schema as [Hs Hplain_schema].
    apply NoDup_cons in Hnodup as [Hfresh Hnodup].
    destruct (validate_entry_spec c v Hs) as (c1 & value & -> & Hst & Hgood). cbn.
    destruct (option_state_step _ _ _ _ _ _ Hs eq_refl Hst Hplain)
      as (Hplain1 & Hs1 & Hkeep1 & Hget1).
    destruct (IH c1 Hplain_schema Hnodup Hplain1)
      as (c' & -> & Hdef & Hplain' & Hkeep & Hget & Hall).
    exists c'. split; [reflexivity|].
    pose proof Hst as (Hdef0 & _ & _ & _ & Hvalue).
    split; [congruence|]. split; [exact Hplain'|].
    split; [auto|]. split.
    + intros s o Hnot Hsome.
      destruct (Hget s o) as [-> ->]; [|auto|].
      * intros Hin. apply Hnot. now right.
      * apply Hget1; [|exact Hsome]. intros Heq. apply Hnot. rewrite Heq. now left.
    + intros v' Hv'. apply elem_of_cons in Hv' as [->|Hv']; [|now apply Hall].
      destruct (Hget _ _ Hfresh Hs1) as [Hsame Hsame'].
      split; [auto|]. exists value. split; [now rewrite Hsame|].
      destruct Hgood as [[-> Hstored]|Hacc]; [left | now right].
      split; [reflexivity|]. now rewrite Hsame'.
Qed.

Lemma remove_unknown_options_spec (schema_options : list (string * string)) s opts :
  forall c d,
    is_default_section s = false ->
    cfg_sections c !! s = Some d ->
    exists c' d',
      remove_unknown_options schema_options s opts c = Some c' /\
      cfg_defaults c' = cfg_defaults c /\
      cfg_sections c' = <[s := d']> (cfg_sections c) /\
      (forall o, o ∈ opts -> (s, o) ∉ schema_options -> d' !! o = None) /\
      (forall o, (s, o) ∈ schema_options -> d' !! o = d !! o) /\
      (forall o, is_Some (d' !! o) -> is_Some (d !! o)).
Proof.
  induction opts as [|opt opts IH]; intros c d Hs Hd; cbn.
  - exists c, d. repeat split; auto; [now rewrite insert_id|].
    intros o Ho. inversion Ho.
  - destruct (decide ((s, opt) ∈ schema_options)) as [Hin|Hnot].
    + rewrite bool_decide_eq_true_2 by exact Hin. cbn.
      destruct (IH c d Hs Hd) as (c' & d' & -> & Hdef & Hsec & Hgone & Hkept & Hsub).
      exists c', d'. repeat split; auto.
      intros o Ho Hno. apply elem_of_cons in Ho as [->|Ho]; [contradiction | auto].
    + rewrite bool_decide_eq_false_2 by exact Hnot.
      unfold remove_option. rewrite Hs, Hd. cbn.
      set (c1 := mkConfig _ _).
      destruct (IH c1 (delete opt d) Hs) as (c' & d' & -> & Hdef & Hsec & Hgone & Hkept & Hsub).
      { subst c1. cbn. apply lookup_insert_eq. }
      exists c', d'. split; [reflexivity|]. split; [exact Hdef|].
      split; [rewrite Hsec; subst c1; cbn; now rewrite insert_insert_eq|].
      split; [|split].
      * intros o Ho Hno. apply elem_of_cons in Ho as [->|Ho]; [|auto].
        destruct (d' !! opt) eqn:Hlook; [|reflexivity].
        destruct (Hsub opt ltac:(eauto)) as [x Hx]. now rewrite lookup_delete_eq in Hx.
      * intros o Ho. rewrite (Hkept o Ho). apply lookup_delete_ne. congruence.
      * intros o Ho. apply Hsub in Ho. destruct (decide (o = opt)) as [->|Hne].
        -- rewrite lookup_delete_eq in Ho. now destruct Ho.
        -- now rewrite lookup_delete_ne in Ho by congruence.
Qed.

Lemma cleanup_loop_spec (schema_sections : list string)
    (schema_options : list (string * string)) names :
  forall c,
    NoDup names ->
    (forall s, s ∈ names -> is_Some (cfg_sections c !! s)) ->
    plain_sections c ->
    exists c',
      cleanup_loop schema_sections schema_options names c = Some c' /\
      cfg_defaults c' = cfg_defaults c /\
      (forall s, s ∉ names -> cfg_sections c' !! s = cfg_sections c !! s) /\
      (forall s, s ∈ names -> s ∉ schema_sections -> cfg_sections c' !! s = None) /\
      (forall s d, s ∈ names -> s ∈ schema_sections -> cfg_sections c !! s = Some d ->
         exists d', cfg_sections c' !! s = Some d' /\
                    (forall o, is_Some (d' !! o) -> (s, o) ∈ schema_options) /\
                    (forall o, (s, o) ∈ schema_options -> d' !! o = d !! o)).
Proof.
  induction names as [|section names IH]; intros c Hnodup Hpresent Hplain; cbn.
  - exists c. split; [reflexivity|]. split; [reflexivity|]. split; [reflexivity|].
    split; [intros s Hs; inversion Hs | intros s d Hs; inversion Hs].
  - apply NoDup_cons in Hnodup as [Hfresh Hnodup].
    destruct (Hpresent section ltac:(now left)) as [d Hd].
    assert (is_default_section section = false) as Hsec by (apply Hplain; eauto).
    assert (exists c1,
      (if bool_decide (section ∈ schema_sections)
       then opts ← config_options c section;
            remove_unknown_options schema_options section opts c
       else Some (remove_section c section)) = Some c1 /\
      cfg_defaults c1 = cfg_defaults c /\
      (forall s, s <> section -> cfg_sections c1 !! s = cfg_sections c !! s) /\
      (section ∉ schema_sections -> cfg_sections c1 !! section = None) /\
      (section ∈ schema_sections ->
         exists d', cfg_sections c1 !! section = Some d' /\
                    (forall o, is_Some (d' !! o) -> (section, o) ∈ schema_options) /\
                    (forall o, (section, o) ∈ schema_options -> d' !! o = d !! o)))
      as (c1 & -> & Hdef1 & Hother1 & Hout1 & Hin1).
    { destruct (decide (section ∈ schema_sections)) as [Hin|Hout].
      - rewrite bool_decide_eq_true_2 by exact Hin.
        unfold config_options. rewrite Hd. cbn.
        destruct (remove_unknown_options_spec schema_options section
                    (map_to_list (d ∪ cfg_defaults c)).*1 c d Hsec Hd)
          as (c1 & d' & -> & Hdef & Hsecs & Hgone & Hkept & Hsub).
        exists c1. split; [reflexivity|]. split; [exact Hdef|]. split; [|split].
        + intros s Hne. rewrite Hsecs. now apply lookup_insert_ne.
        + contradiction.
        + intros _. exists d'. rewrite Hsecs, lookup_insert_eq.
          split; [reflexivity|]. split; [|exact Hkept].
          intros o Ho. destruct (decide ((section, o) ∈ schema_options)) as [|Hno]; [assumption|].
          exfalso. destruct (Hsub o Ho) as [x Hx].
          assert (o ∈ (map_to_list (d ∪ cfg_defaults c)).*1) as Hopt.
          { apply list_elem_of_fmap. exists (o, x). split; [reflexivity|].
            apply elem_of_map_to_list, lookup_union_Some_l, Hx. }
          rewrite (Hgone o Hopt Hno) in Ho. now destruct Ho.
      - rewrite bool_decide_eq_false_2 by exact Hout.
        exists (remove_section c section). split; [reflexivity|].
        split; [reflexivity|]. split; [|split].
        + intros s Hne. cbn. now apply lookup_delete_ne.
        + intros _. cbn. apply lookup_delete_eq.
        + contradiction. }
    cbn.
    destruct (IH c1 Hnodup) as (c' & -> & Hdef & Hother & Hout & Hin).
    { intros s Hs. rewrite Hother1; [apply Hpresent; now right|].
      intros ->. contradiction. }
    { intros s [ds Hs]. destruct (decide (s = section)) as [->|Hne]; [exact Hsec|].
      apply Hplain. rewrite <- Hother1 by exact Hne. eauto. }
    exists c'. split; [reflexivity|]. split; [congruence|]. split; [|split].
    + intros s Hs. rewrite Hother by (intros ?; apply Hs; now right).
      apply Hother1. intros ->. apply Hs. now left.
    + intros s Hs Hno. apply elem_of_cons in Hs as [->|Hs]; [|now apply Hout].
      rewrite Hother by exact Hfresh. now apply Hout1.
    + intros s ds Hs Hyes Hds. apply elem_of_cons in Hs as [->|Hs].
      * rewrite Hother by exact Hfresh.
        assert (ds = d) as -> by congruence. now apply Hin1.
      * apply (Hin s ds Hs Hyes). rewrite Hother1; [exact Hds|].
        intros ->. contradiction.
Qed.

Lemma validate_settles (c : config) (schema : list schema_entry) :
  cfg_sections c !! "" = None ->
  cfg_sections c !! "DEFAULT" = None ->
  Forall (fun v => is_default_section (se_section v) = false) schema ->
  NoDup (schema_key <$> schema) ->
  exists c',
    validate c schema = Some c' /\
    cfg_defaults c' = cfg_defaults c /\
    (forall s d, cfg_sections c' !! s = Some d ->
       s ∈ se_section <$> schema /\
       forall o, is_Some (d !! o) -> (s, o) ∈ schema_key <$> schema) /\
    (forall v, v ∈ schema ->
       exists value,
         get_option c' (se_section v) (se_option v) = Some value /\
         settled_value c' v value).
Proof.
  intros Hempty Hdefault Hplain_schema Hnodup.
  assert (plain_sections c) as Hplain.
  { intros s [d Hs]. unfold is_default_section.
    destruct (String.eqb_spec s "") as [->|_]; [congruence|].
    destruct (String.eqb_spec s "DEFAULT") as [->|_]; [congruence | reflexivity]. }
  destruct (validate_loop_spec schema c Hplain_schema Hnodup Hplain)
    as (c1 & Hloop & Hdef1 & Hplain1 & _ & _ & Hall).
  unfold validate. rewrite Hloop. cbn.
  destruct (cleanup_loop_spec (se_section <$> schema) (schema_key <$> schema)
              (map_to_list (cfg_sections c1)).*1 c1)
    as (c' & -> & Hdef & Hother & Hout & Hin).
  { apply NoDup_fst_map_to_list. }
  { intros s Hs. apply list_elem_of_fmap in Hs as ([s' d] & -> & Hs).
    apply elem_of_map_to_list in Hs. cbn. eauto. }
  { exact Hplain1. }
  assert (forall s d, cfg_sections c1 !! s = Some d ->
            s ∈ (map_to_list (cfg_sections c1)).*1) as Hnames.
  { intros s d Hs. apply list_elem_of_fmap. exists (s, d).
    split; [reflexivity | now apply elem_of_map_to_list]. }
  exists c'. split; [reflexivity|]. split; [congruence|]. split.
  - intros s d Hs.
    destruct (cfg_sections c1 !! s) as [d1|] eqn:Hs1.
    + pose proof (Hnames _ _ Hs1) as Hname.
      destruct (decide (s ∈ se_section <$> schema)) as [Hyes|Hno].
      * split; [exact Hyes|].
        destruct (Hin s d1 Hname Hyes Hs1) as (d' & Hd' & Hknown & _).
        assert (d = d') as -> by congruence. exact Hknown.
      * rewrite (Hout s Hname Hno) in Hs. discriminate.
    + rewrite Hother in Hs; [congruence|].
      intros Hname. apply list_elem_of_fmap in Hname as ([s' d'] & -> & Hname).
      apply elem_of_map_to_list in Hname. cbn in Hs1. congruence.
  - intros v Hv. destruct (Hall v Hv) as ([d1 Hs1] & value & Hget & Hgood).
    exists value.
    destruct (Hin (se_section v) d1 (Hnames _ _ Hs1)) as (d' & Hd' & _ & Hkept).
    { apply list_elem_of_fmap. eauto. }
    { exact Hs1. }
    assert (d' !! se_option v = d1 !! se_option v) as Hsame.
    { apply Hkept, list_elem_of_fmap. eauto. }
    unfold settled_value, stored, get_option in *.
    rewrite Hd', Hdef, Hsame. rewrite Hs1 in Hget, Hgood. auto.
Qed.

(** A configuration that [validate] would leave is left as it is by the
    first loop, when no entry has a preprocessor. *)
Lemma validate_loop_settled schema c :
  Forall (fun v => is_default_section (se_section v) = false) schema ->
  Forall (fun v => se_preprocessor v = None) schema ->
  (forall v, v ∈ schema ->
     exists value, get_option c (se_section v) (se_option v) = Some value /\
                   settled_value c v value) ->
  validate_loop schema c = Some c.
Proof.
  induction schema as [|v schema IH]; intros Hplain Hnone Hall; [reflexivity|].
  apply Forall_cons in Hplain as [Hs Hplain].
  apply Forall_cons in Hnone as [Hpre Hnone].
  destruct (Hall v ltac:(now left)) as (value & Hget & Hgood).
  assert (validate_entry c v = Some c) as Hentry.
  { destruct (is_default_section_false _ Hs) as [_ Hne].
    assert (exists d, cfg_sections c !! se_section v = Some d) as [d Hd].
    { unfold get_option in Hget.
      destruct (cfg_sections c !! se_section v) as [d|]; [eauto|].
      destruct (String.eqb_spec (se_section v) "DEFAULT");
        [contradiction | discriminate]. }
    unfold validate_entry, has_section.
    rewrite bool_decide_eq_true_2 by (rewrite Hd; eauto). cbn.
    unfold validate_option.
    assert (has_option c (se_section v) (se_option v) = true) as ->.
    { unfold has_option. rewrite Hs, Hd. unfold get_option in Hget.
      rewrite Hd in Hget.
      destruct (d !! se_option v); [reflexivity|]. rewrite Hget. reflexivity. }
    rewrite Hget, Hpre. cbn.
    assert (accepted (se_type v) value = false ->
            set_option c (se_section v) (se_option v) (se_default v) = Some c)
      as Hset.
    { intros Hacc. destruct Hgood as [[-> Hstored]|Hyes]; [|congruence].
      unfold stored in Hstored. rewrite Hd in Hstored.
      unfold set_option. rewrite Hs, Hd. f_equal.
      rewrite (insert_id d) by exact Hstored.
      rewrite insert_id by exact Hd. now destruct c. }
    unfold accepted in Hset.
    destruct (se_type v) as [accepts|choices].
    - destruct (accepts value); [reflexivity | now apply Hset].
    - destruct (bool_decide (value ∈ choices)); [reflexivity | now apply Hset]. }
  cbn. rewrite Hentry. cbn. apply IH; auto.
  intros v' Hv'. apply Hall. now right.
Qed.

Lemma remove_unknown_options_settled (schema_options : list (string * string))
    s opts c d :
  is_default_section s = false ->
  cfg_sections c !! s = Some d ->
  (forall o, is_Some (d !! o) -> (s, o) ∈ schema_options) ->
  remove_unknown_options schema_options s opts c = Some c.
Proof.
  intros Hs Hd Hknown. induction opts as [|opt opts IH]; [reflexivity|]. cbn.
  destruct (decide ((s, opt) ∈ schema_options)) as [Hin|Hnot].
  - rewrite bool_decide_eq_true_2 by exact Hin. exact IH.
  - rewrite bool_decide_eq_false_2 by exact Hnot.
    unfold remove_option. rewrite Hs, Hd. cbn.
    assert (d !! opt = None) as Hgone.
    { destruct (d !! opt) eqn:Hlook; [|reflexivity].
      exfalso. apply Hnot, Hknown. rewrite Hlook. eauto. }
    rewrite delete_id by exact Hgone. rewrite insert_id by exact Hd.
    destruct c. exact IH.
Qed.

Lemma cleanup_loop_settled (schema_sections : list string)
    (schema_options : list (string * string)) names c :
  (forall s, s ∈ names ->
     is_default_section s = false /\ s ∈ schema_sections /\
     exists d, cfg_sections c !! s = Some d /\
               forall o, is_Some (d !! o) -> (s, o) ∈ schema_options) ->
  cleanup_loop schema_sections schema_options names c = Some c.
Proof.
  induction names as [|section names IH]; intros Hall; [reflexivity|]. cbn.
  destruct (Hall section ltac:(now left)) as (Hs & Hin & d & Hd & Hknown).
  rewrite bool_decide_eq_true_2 by exact Hin.
  unfold config_options. rewrite Hd. cbn.
  rewrite (remove_unknown_options_settled _ _ _ _ d Hs Hd Hknown). cbn.
  apply IH. intros s Hs'. apply Hall. now right.
Qed.

(** X21: on a configuration as the parser builds it, with no section
    stored under the name DEFAULT or the empty name, and a schema whose
    sections are not those and that lists no option twice, [validate] does
    not raise; it leaves the options of DEFAULT as they were; every section
    and every option it leaves stored is one of the schema; and every
    option of the schema can be read afterwards, with the default of its
    entry or with a value that passes the type of its entry. *)
Theorem validate_conforms (c : config) (schema : list schema_entry) :
  cfg_sections c !! "" = None ->
  cfg_sections c !! "DEFAULT" = None ->
  Forall (fun v => is_default_section (se_section v) = false) schema ->
  NoDup (schema_key <$> schema) ->
  exists c',
    validate c schema = Some c' /\
    cfg_defaults c' = cfg_defaults c /\
    (forall s d, cfg_sections c' !! s = Some d ->
       s ∈ se_section <$> schema /\
       forall o, is_Some (d !! o) -> (s, o) ∈ schema_key <$> schema) /\
    (forall v, v ∈ schema ->
       exists value,
         get_option c' (se_section v) (se_option v) = Some value /\
         (value = se_default v \/ accepted (se_type v) value = true)).
Proof.
  intros Hempty Hdefault Hplain Hnodup.
  destruct (validate_settles c schema Hempty Hdefault Hplain Hnodup)
    as (c' & Hrun & Hdef & Hknown & Hall).
  exists c'. repeat (split; [assumption|]).
  intros v Hv. destruct (Hall v Hv) as (value & Hget & [[Hvalue _]|Hacc]); eauto.
Qed.


Lemma validate_conforms_witness :
  exists c',
    validate sample_config sample_schema = Some c' /\
    cfg_defaults c' = cfg_defaults sample_config /\
    (forall s d, cfg_sections c' !! s = Some d ->
       s ∈ se_section <$> sample_schema /\
       forall o, is_Some (d !! o) -> (s, o) ∈ schema_key <$> sample_schema) /\
    (forall v, v ∈ sample_schema ->
       exists value,
         get_option c' (se_section v) (se_option v) = Some value /\
         (value = se_default v \/ accepted (se_type v) value = true)).
Proof.
  apply (validate_conforms sample_config sample_schema).
  - reflexivity.
  - reflexivity.
  - repeat constructor.
  - apply (bool_decide_unpack _). vm_compute. exact I.
Defined.

Example validate_sample :
  validate sample_config sample_schema
  = Some (mkConfig ∅
      (<["login" := <["username" := "alice"]> (<["password" := "secret"]> ∅)]>
       (<["parameters" := <["protocol" := "https"]> (<["uuid_prefix" := "_hw"]>
                          (<["compiler" := "g++"]> ∅))]> ∅))).
Proof. vm_compute. reflexivity. Qed.

(** X22: under the same conditions and with a schema none of whose entries
    has a preprocessor, as that of [setup_parameters], validating once is
    enough: [validate] leaves the configuration that it returned as it
    is. *)
Theorem validate_idempotent (c : config) (schema : list schema_entry) :
  cfg_sections c !! "" = None ->
  cfg_sections c !! "DEFAULT" = None ->
  Forall (fun v => is_default_section (se_section v) = false) schema ->
  Forall (fun v => se_preprocessor v = None) schema ->
  NoDup (schema_key <$> schema) ->
  exists c', validate c schema = Some c' /\ validate c' schema = Some c'.
Proof.
  intros Hempty Hdefault Hplain Hnone Hnodup.
  destruct (validate_settles c schema Hempty Hdefault Hplain Hnodup)
    as (c' & Hrun & Hdef & Hknown & Hall).
  exists c'. split; [exact Hrun|]. unfold validate.
  rewrite (validate_loop_settled schema c' Hplain Hnone Hall). cbn.
  apply cleanup_loop_settled. intros s Hs.
  apply list_elem_of_fmap in Hs as ([s' d] & -> & Hs).
  apply elem_of_map_to_list in Hs. cbn.
  destruct (Hknown _ _ Hs) as [Hin Hopts].
  split; [|eauto].
  apply list_elem_of_fmap in Hin as (v & -> & Hv).
  rewrite Forall_forall in Hplain. now apply Hplain.
Qed.

Lemma validate_idempotent_witness :
  exists c', validate sample_config sample_schema = Some c' /\
             validate c' sample_schema = Some c'.
Proof.
  apply (validate_idempotent sample_config sample_schema).
  - reflexivity.
  - reflexivity.
  - repeat constructor.
  - repeat constructor.
  - apply (bool_decide_unpack _). vm_compute. exact I.
Defined.
